(** * A shallow embedding of the EPO retrieval scripts

    Two scripts are modelled:
    - [patent-first-page-downloader.py]: the rate limiter, the token cache,
      [download_one] and [run_bulk]  (modules [RateLimiter] and [FrontPage]);
    - [epo-bulk-downloader.py]: [head_content_length], [is_fully_downloaded],
      [download_stream], [pick_first] and the delivery lookup of [main]
      (module [Bulk]); [get_json], the file lookup of [main] and the body of
      its loop over the files (module [BulkMain]).

    Python [str] and [bytes] values are Rocq strings (sequences of 8-bit
    characters), HTTP status codes and sizes are integers, durations and
    wall-clock readings are rationals.  The network, the random generator and
    the clock are oracles indexed by the number of calls made so far; every
    outside effect is also appended to a chronological trace. *)

From Stdlib Require Import ZArith QArith Qminmax Lqa Lia Ascii String List Bool.
From stdpp Require Import base gmap strings list.

Set Default Proof Using "Type".

(** ** Python exceptions and a state-and-exception monad *)

Module Py.

(** The exception classes the scripts can meet.  [ConnectionError],
    [HTTPError] (raised by [raise_for_status]) and [JSONDecodeError]
    (raised by [Response.json]) are subclasses of
    [requests.RequestException]; the others are not. *)
Inductive exn : Type :=
| ConnectionError
| HTTPError (status : Z)
| JSONDecodeError
| KeyError (key : string)
| ValueError
| OSError
| RuntimeError (msg : string).

Definition is_RequestException (e : exn) : bool :=
  match e with
  | ConnectionError | HTTPError _ | JSONDecodeError => true
  | KeyError _ | ValueError | OSError | RuntimeError _ => false
  end.

(** [except Exception] catches every class above. *)
Definition is_Exception (e : exn) : bool := true.

Inductive res (A : Type) : Type :=
| Ok (a : A)
| Raise (e : exn).
Arguments Ok {A} a.
Arguments Raise {A} e.

(** A computation reads and updates a state [S] and either returns a value
    or raises; the state reached when the exception is raised is kept. *)
Definition M (S A : Type) : Type := S -> res A * S.

Definition ret {S A} (a : A) : M S A := fun s => (Ok a, s).

Definition bind {S A B} (m : M S A) (k : A -> M S B) : M S B :=
  fun s => match m s with
           | (Ok a, s') => k a s'
           | (Raise e, s') => (Raise e, s')
           end.

Definition raise {S A} (e : exn) : M S A := fun s => (Raise e, s).

Definition get {S} : M S S := fun s => (Ok s, s).

Definition modify {S} (f : S -> S) : M S unit := fun s => (Ok tt, f s).

(** [try: body except <classes>: handler]. *)
Definition try_except {S A} (body : M S A) (catches : exn -> bool)
    (handler : exn -> M S A) : M S A :=
  fun s => match body s with
           | (Ok a, s') => (Ok a, s')
           | (Raise e, s') => if catches e then handler e s' else (Raise e, s')
           end.

(** [for x in xs: body] where the body either falls through to the next
    iteration ([None]: [continue], or the end of the body) or leaves the
    enclosing function with a value ([Some r]: [return r]); [after] is the
    code that follows the loop. *)
Fixpoint for_loop {S X R} (xs : list X) (body : X -> M S (option R))
    (after : M S R) : M S R :=
  match xs with
  | [] => after
  | x :: rest =>
      bind (body x) (fun r =>
        match r with
        | Some v => ret v
        | None => for_loop rest body after
        end)
  end.

(** [wp m Q s]: running [m] from [s] ends in an outcome and a state that
    satisfy [Q]. *)
Definition wp {S A} (m : M S A) (Q : res A -> S -> Prop) (s : S) : Prop :=
  Q (fst (m s)) (snd (m s)).

(** [range(lo, hi)] for naturals. *)
Definition range (lo hi : nat) : list nat := seq lo (hi - lo).

(** [Response.raise_for_status]: an [HTTPError] for 4xx and 5xx. *)
Definition raise_for_status {S} (status : Z) : M S unit :=
  if ((400 <=? status) && (status <? 600))%Z then raise (HTTPError status)
  else ret tt.

(** [str.isdigit] and [int] on header text.  Header field values are taken
    over the ASCII characters, as the grammar of [Retry-After] and
    [Content-Length] has them. *)
Definition is_ascii_digit (c : ascii) : bool :=
  ((48 <=? nat_of_ascii c) && (nat_of_ascii c <=? 57))%nat.

Fixpoint all_digits (s : string) : bool :=
  match s with
  | EmptyString => true
  | String c s' => is_ascii_digit c && all_digits s'
  end.

Definition isdigit (s : string) : bool :=
  match s with
  | EmptyString => false
  | _ => all_digits s
  end.

Definition is_space (c : ascii) : bool :=
  let n := nat_of_ascii c in
  ((n =? 32) || ((9 <=? n) && (n <=? 13)))%nat.

Fixpoint lstrip (s : string) : string :=
  match s with
  | String c s' => if is_space c then lstrip s' else s
  | EmptyString => EmptyString
  end.

Fixpoint rstrip (s : string) : string :=
  match s with
  | EmptyString => EmptyString
  | String c s' =>
      match rstrip s' with
      | EmptyString => if is_space c then EmptyString else String c EmptyString
      | t => String c t
      end
  end.

Definition strip (s : string) : string := rstrip (lstrip s).

(** The digits of a decimal literal; an underscore may stand between two
    digits.  [prev] tells whether the previous character was a digit. *)
Fixpoint literal_value (prev : bool) (acc : Z) (s : string) : option Z :=
  match s with
  | EmptyString => if prev then Some acc else None
  | String c s' =>
      if is_ascii_digit c
      then literal_value true (10 * acc + Z.of_nat (nat_of_ascii c - 48)) s'
      else if (nat_of_ascii c =? 95)%nat && prev
           then literal_value false acc s'
           else None
  end.

(** [int(s)] in base ten: surrounding blanks, an optional sign, digits.
    [None] stands for [ValueError]. *)
Definition int (s : string) : option Z :=
  match strip s with
  | String "-" t => Z.opp <$> literal_value false 0 t
  | String "+" t => literal_value false 0 t
  | t => literal_value false 0 t
  end.

(** [bytes.startswith] / [str.startswith]. *)
Definition startswith (s p : string) : bool := String.prefix p s.

(** [len] of a [bytes] or [str] value. *)
Definition len (s : string) : Z := Z.of_nat (String.length s).

End Py.

Notation "'let*' x := m 'in' k" := (Py.bind m (fun x => k))
  (at level 10, x name, m at level 100, k at level 200,
   format "'[v' 'let*'  x  :=  m  'in' '/' k ']'").
Notation "m ;; k" := (Py.bind m (fun _ => k))
  (at level 100, k at level 200, right associativity,
   format "'[v' m  ;; '/' k ']'").

Example int_examples :
  Py.int "1024" = Some 1024%Z /\ Py.int " +1_000 " = Some 1000%Z /\
  Py.int "-7" = Some (-7)%Z /\ Py.int "" = None /\ Py.int "12a" = None /\
  Py.int "1__0" = None /\ Py.isdigit "120" = true /\ Py.isdigit "" = false.
Proof. repeat split; reflexivity. Qed.

(** ** The front-page downloader: [patent-first-page-downloader.py] *)

Module FrontPage.
Import Py.

(** *** Configuration constants *)

Definition BASE : string := "https://ops.epo.org/3.2".
Definition OUT_DIR : string := "front_pages".
Definition LOG_PATH : string := "download_log.csv".
Definition COUNTRY : string := "EP".
Definition RATE_PER_SEC : Q := 1.
Definition WORKERS : nat := 1.
Definition CHUNK_SIZE : nat := 100.
Definition RANGE_HEADER_VALUE : string := "1".
Definition RETRY_STATUS : list Z := [429; 500; 502; 503; 504]%Z.

(** *** Task model *)

Record DownloadTask : Type := {
  pub_number : string;
  kind : string;
  country : string
}.

(** [IMG_URL.format(country=..., pub=..., kind=...)]. *)
Definition IMG_URL (country pub kind : string) : string :=
  BASE +:+ "/rest-services/published-data/images/" +:+ country +:+ "/"
       +:+ pub +:+ "/" +:+ kind +:+ "/fullimage.pdf".

(** [os.path.join(a, b)] on POSIX. *)
Definition os_path_join (a b : string) : string :=
  if startswith b "/" then b
  else if String.eqb a "" then b
  else if startswith (String.substring (String.length a - 1) 1 a) "/"
       then a +:+ b
       else a +:+ "/" +:+ b.

Definition out_path_for (task : DownloadTask) : string :=
  os_path_join OUT_DIR
    (country task +:+ pub_number task +:+ kind task +:+ "_page1.pdf").

(** [chunked(it, size)], for a positive [size]: the slices
    [it[i:i+size]] for [i] in [range(0, len(it), size)].  [fuel] bounds the
    number of slices. *)
Fixpoint chunked_aux {A} (fuel : nat) (it : list A) (size : nat) : list (list A) :=
  match fuel, it with
  | O, _ | _, [] => []
  | S fuel', _ => take size it :: chunked_aux fuel' (drop size it) size
  end.

Definition chunked {A} (it : list A) (size : nat) : list (list A) :=
  chunked_aux (length it) it size.

(** *** The outside world *)

(** What [requests.post] to the token endpoint yields. *)
Inductive json_body : Type :=
| NotJson                          (* the body does not parse *)
| JsonWithoutToken                 (* parses, no "access_token" key *)
| JsonToken (access_token : string).

Inductive auth_reply : Type :=
| AuthNetworkError                 (* [requests.post] raises *)
| AuthResponse (status : Z) (body : json_body).

Record Request : Type := {
  req_url : string;
  req_Authorization : string;
  req_Accept : string;
  req_Range : string
}.

Record Response : Type := {
  status_code : Z;
  header_Retry_After : option string;
  content : string
}.

Inductive get_reply : Type :=
| GetNetworkError                  (* [session.get] raises *)
| GetResponse (r : Response).

(** The environment of a run: the token endpoint, the image endpoint and
    [random.random], each asked for its n-th answer; the image endpoint
    also sees the request. *)
Record Env : Type := {
  auth_server : nat -> auth_reply;
  image_server : nat -> Request -> get_reply;
  random_source : nat -> Q;
  clock_text : nat -> string       (* [time.strftime] at the n-th log row *)
}.

Inductive event : Type :=
| EvMakedirs (dir : string)
| EvRateWait
| EvAuthPost
| EvGet (req : Request)
| EvSleep (seconds : Q)
| EvWriteFile (path : string) (data : string).

(** [last_msg], kept as the f-string's pieces. *)
Inductive message : Type :=
| MsgEmpty
| MsgTokenRefreshed
| MsgRetryable (status : Z) (sleep_s : Q)
| MsgHTTP (status : Z) (snippet : string)
| MsgNotPDF (first_bytes : string)
| MsgRequestError (e : exn) (sleep_s : Q).

(** One row of the CSV log, in the column order of [init_log]. *)
Record LogRow : Type := {
  row_ts : string;
  row_country : string;
  row_pub_number : string;
  row_kind : string;
  row_status : string;
  row_http_status : Z;
  row_bytes : Z;
  row_message : string;
  row_out_path : string
}.

Inductive csv_record : Type :=
| Header
| Row (r : LogRow).

(** What [download_one] returns:
    [(task, success, status_str, http_status, bytes_written, out_path)]. *)
Record Result : Type := {
  res_task : DownloadTask;
  res_success : bool;
  res_status_str : string;
  res_http_status : Z;
  res_bytes_written : Z;
  res_out_path : string
}.

(** The state threaded through the script: the regular files under
    [OUT_DIR] (path to content), the module global [_token], the log file
    ([None] while it does not exist), the locals of the running
    [download_one] that outlive an exception, the number of answers each
    oracle has given, and the trace. *)
Record State : Type := {
  fs : gmap string string;
  _token : option string;
  log_file : option (list csv_record);
  headers_Authorization : string;
  last_msg : message;
  http_status : Z;
  n_auth : nat;
  n_get : nat;
  n_random : nat;
  n_clock : nat;
  trace : list event
}.

Definition add_event (e : event) (s : State) : State :=
  {| fs := fs s; _token := _token s; log_file := log_file s;
     headers_Authorization := headers_Authorization s;
     last_msg := last_msg s; http_status := http_status s;
     n_auth := n_auth s; n_get := n_get s;
     n_random := n_random s; n_clock := n_clock s;
     trace := trace s ++ [e] |}.

Definition emit (e : event) : M State unit := modify (add_event e).

Definition set_fs (f : gmap string string) : M State unit :=
  modify (fun s => {| fs := f; _token := _token s; log_file := log_file s;
                      headers_Authorization := headers_Authorization s;
                      last_msg := last_msg s; http_status := http_status s;
                      n_auth := n_auth s; n_get := n_get s;
                      n_random := n_random s; n_clock := n_clock s;
                      trace := trace s |}).

Definition set_token (t : option string) : M State unit :=
  modify (fun s => {| fs := fs s; _token := t; log_file := log_file s;
                      headers_Authorization := headers_Authorization s;
                      last_msg := last_msg s; http_status := http_status s;
                      n_auth := n_auth s; n_get := n_get s;
                      n_random := n_random s; n_clock := n_clock s;
                      trace := trace s |}).

Definition set_log_file (l : option (list csv_record)) : M State unit :=
  modify (fun s => {| fs := fs s; _token := _token s; log_file := l;
                      headers_Authorization := headers_Authorization s;
                      last_msg := last_msg s; http_status := http_status s;
                      n_auth := n_auth s; n_get := n_get s;
                      n_random := n_random s; n_clock := n_clock s;
                      trace := trace s |}).

Definition set_headers_Authorization (h : string) : M State unit :=
  modify (fun s => {| fs := fs s; _token := _token s; log_file := log_file s;
                      headers_Authorization := h;
                      last_msg := last_msg s; http_status := http_status s;
                      n_auth := n_auth s; n_get := n_get s;
                      n_random := n_random s; n_clock := n_clock s;
                      trace := trace s |}).

Definition set_last_msg (m : message) : M State unit :=
  modify (fun s => {| fs := fs s; _token := _token s; log_file := log_file s;
                      headers_Authorization := headers_Authorization s;
                      last_msg := m; http_status := http_status s;
                      n_auth := n_auth s; n_get := n_get s;
                      n_random := n_random s; n_clock := n_clock s;
                      trace := trace s |}).

Definition set_http_status (c : Z) : M State unit :=
  modify (fun s => {| fs := fs s; _token := _token s; log_file := log_file s;
                      headers_Authorization := headers_Authorization s;
                      last_msg := last_msg s; http_status := c;
                      n_auth := n_auth s; n_get := n_get s;
                      n_random := n_random s; n_clock := n_clock s;
                      trace := trace s |}).

(** The next answer number of an oracle. *)
Definition tick_auth : M State nat :=
  let* s0 := get in
  modify (fun s => {| fs := fs s; _token := _token s; log_file := log_file s;
                      headers_Authorization := headers_Authorization s;
                      last_msg := last_msg s; http_status := http_status s;
                      n_auth := S (n_auth s); n_get := n_get s;
                      n_random := n_random s; n_clock := n_clock s;
                      trace := trace s |}) ;;
  ret (n_auth s0).

Definition tick_get : M State nat :=
  let* s0 := get in
  modify (fun s => {| fs := fs s; _token := _token s; log_file := log_file s;
                      headers_Authorization := headers_Authorization s;
                      last_msg := last_msg s; http_status := http_status s;
                      n_auth := n_auth s; n_get := S (n_get s);
                      n_random := n_random s; n_clock := n_clock s;
                      trace := trace s |}) ;;
  ret (n_get s0).

Definition tick_random : M State nat :=
  let* s0 := get in
  modify (fun s => {| fs := fs s; _token := _token s; log_file := log_file s;
                      headers_Authorization := headers_Authorization s;
                      last_msg := last_msg s; http_status := http_status s;
                      n_auth := n_auth s; n_get := n_get s;
                      n_random := S (n_random s); n_clock := n_clock s;
                      trace := trace s |}) ;;
  ret (n_random s0).

Definition tick_clock : M State nat :=
  let* s0 := get in
  modify (fun s => {| fs := fs s; _token := _token s; log_file := log_file s;
                      headers_Authorization := headers_Authorization s;
                      last_msg := last_msg s; http_status := http_status s;
                      n_auth := n_auth s; n_get := n_get s;
                      n_random := n_random s; n_clock := S (n_clock s);
                      trace := trace s |}) ;;
  ret (n_clock s0).

Section WithEnv.
Variable env : Env.

(** *** Primitives *)

(** [rate_limiter.wait()] as [download_one] sees it: one admission; the
    pacing itself is the subject of module [RateLimiter]. *)
Definition rate_limiter_wait : M State unit := emit EvRateWait.

Definition time_sleep (seconds : Q) : M State unit := emit (EvSleep seconds).

Definition random_random : M State Q :=
  let* i := tick_random in
  ret (random_source env i).

Definition os_makedirs (dir : string) : M State unit := emit (EvMakedirs dir).

Definition os_path_exists (path : string) : M State bool :=
  let* s := get in
  ret (bool_decide (is_Some (fs s !! path))).

Definition os_path_getsize (path : string) : M State Z :=
  let* s := get in
  match fs s !! path with
  | Some data => ret (len data)
  | None => raise OSError
  end.

(** [with open(path, "wb") as f: f.write(data)]. *)
Definition write_file (path data : string) : M State unit :=
  let* s := get in
  set_fs (<[path := data]> (fs s)) ;;
  emit (EvWriteFile path data).

(** *** Token management *)

Definition _get_token_raw : M State string :=
  let* i := tick_auth in
  emit EvAuthPost ;;
  match auth_server env i with
  | AuthNetworkError => raise ConnectionError
  | AuthResponse status body =>
      raise_for_status status ;;
      match body with
      | NotJson => raise JSONDecodeError
      | JsonWithoutToken => raise (KeyError "access_token")
      | JsonToken t => ret t
      end
  end.

Definition get_token_cached : M State string :=
  let* s := get in
  match _token s with
  | None =>
      let* t := _get_token_raw in
      set_token (Some t) ;;
      ret t
  | Some t => ret t
  end.

Definition refresh_token : M State unit :=
  let* t := _get_token_raw in
  set_token (Some t).

(** *** Logging *)

Definition init_log : M State unit :=
  let* s := get in
  match log_file s with
  | None => set_log_file (Some [Header])
  | Some _ => ret tt
  end.

(** [open(LOG_PATH, "a")] creates the file when it is missing. *)
Definition append_log (row : LogRow) : M State unit :=
  let* s := get in
  set_log_file (Some (default [] (log_file s) ++ [Row row])).

(** *** Downloader core *)

(** The request [download_one] sends: [url] with the [headers] dict. *)
Definition request_of (url authorization : string) : Request :=
  {| req_url := url;
     req_Authorization := authorization;
     req_Accept := "application/pdf";
     req_Range := RANGE_HEADER_VALUE |}.

(** [session.get(url, headers=headers, timeout=90)]. *)
Definition session_get (url : string) : M State Response :=
  let* s := get in
  let req := request_of url (headers_Authorization s) in
  let* i := tick_get in
  emit (EvGet req) ;;
  match image_server env i req with
  | GetNetworkError => raise ConnectionError
  | GetResponse r => ret r
  end.

(** [min(60, (2 ** (attempt - 1)) + random.random())]. *)
Definition backoff (attempt : nat) : M State Q :=
  let* x := random_random in
  ret (Qmin 60 (inject_Z (2 ^ (Z.of_nat attempt - 1)) + x)).

(** [r.text[:200].replace("\n", " ")]; the body is read as text
    character for character. *)
Fixpoint replace_newlines (s : string) : string :=
  match s with
  | EmptyString => EmptyString
  | String c s' =>
      String (if Ascii.eqb c "010" then " "%char else c) (replace_newlines s')
  end.

Definition snippet_of (r : Response) : string :=
  replace_newlines (String.substring 0 200 (content r)).

(** The tuple [(task, False, "failed", status, 0, out_path)]. *)
Definition failed (task : DownloadTask) (status : Z) (out_path : string) : Result :=
  {| res_task := task; res_success := false; res_status_str := "failed";
     res_http_status := status; res_bytes_written := 0;
     res_out_path := out_path |}.

(** The tuple [(task, True, "downloaded", status, len(data), out_path)]. *)
Definition downloaded (task : DownloadTask) (status : Z) (out_path data : string) : Result :=
  {| res_task := task; res_success := true; res_status_str := "downloaded";
     res_http_status := status; res_bytes_written := len data;
     res_out_path := out_path |}.

(** The tuple [(task, True, "skipped", 200, size, out_path)]. *)
Definition skipped (task : DownloadTask) (size : Z) (out_path : string) : Result :=
  {| res_task := task; res_success := true; res_status_str := "skipped";
     res_http_status := 200; res_bytes_written := size;
     res_out_path := out_path |}.

(** The body of [for attempt in range(1, 8)]. *)
Definition attempt_body (task : DownloadTask) (url out_path : string)
    (attempt : nat) : M State (option Result) :=
  rate_limiter_wait ;;
  try_except
    (let* r := session_get url in
     set_http_status (status_code r) ;;
     if (status_code r =? 401)%Z then
       (* Token expired/invalid *)
       refresh_token ;;
       let* t := get_token_cached in
       set_headers_Authorization ("Bearer " +:+ t) ;;
       set_last_msg MsgTokenRefreshed ;;
       ret None
     else if bool_decide (status_code r ∈ RETRY_STATUS) then
       (* Retryable errors *)
       let* sleep_s :=
         match header_Retry_After r with
         | Some ra =>
             if negb (String.eqb ra "") && isdigit ra
             then match int ra with
                  | Some n => ret (inject_Z n)
                  | None => raise ValueError
                  end
             else backoff attempt
         | None => backoff attempt
         end in
       set_last_msg (MsgRetryable (status_code r) sleep_s) ;;
       time_sleep sleep_s ;;
       ret None
     else if negb (status_code r =? 200)%Z then
       (* Hard fail *)
       set_last_msg (MsgHTTP (status_code r) (snippet_of r)) ;;
       ret (Some (failed task (status_code r) out_path))
     else if negb (startswith (content r) "%PDF") then
       (* Sanity check: PDF header *)
       set_last_msg (MsgNotPDF (String.substring 0 20 (content r))) ;;
       ret (Some (failed task (status_code r) out_path))
     else
       write_file out_path (content r) ;;
       ret (Some (downloaded task (status_code r) out_path (content r))))
    is_RequestException
    (fun e =>
       let* sleep_s := backoff attempt in
       set_last_msg (MsgRequestError e sleep_s) ;;
       time_sleep sleep_s ;;
       ret None).

Definition download_one (task : DownloadTask) : M State Result :=
  os_makedirs OUT_DIR ;;
  let out_path := out_path_for task in
  (* Skip if already downloaded and non-trivial size *)
  let* present := os_path_exists out_path in
  let* skip :=
    if present
    then (let* n := os_path_getsize out_path in ret (1024 <? n)%Z)
    else ret false in
  if skip then
    let* n := os_path_getsize out_path in
    ret (skipped task n out_path)
  else
    let url := IMG_URL (country task) (pub_number task) (kind task) in
    let* t := get_token_cached in
    set_headers_Authorization ("Bearer " +:+ t) ;;
    set_last_msg MsgEmpty ;;
    set_http_status 0 ;;
    for_loop (range 1 8) (attempt_body task url out_path)
      (let* s := get in
       ret (failed task (http_status s) out_path)).

(** *** The dispatcher *)

(** [ex.submit(download_one, t, session)] on the pool of [WORKERS = 1]
    thread: the calls run one after the other in submission order, and
    each future keeps the value or the exception of its call. *)
Definition submit (t : DownloadTask) : M State (res Result) :=
  fun s => let '(o, s') := download_one t s in (Ok o, s').

Fixpoint submit_all (chunk : list DownloadTask) : M State (list (res Result)) :=
  match chunk with
  | [] => ret []
  | t :: rest =>
      let* f := submit t in
      let* fs' := submit_all rest in
      ret (f :: fs')
  end.

Definition log_row_of (ts : string) (r : Result) : LogRow :=
  {| row_ts := ts;
     row_country := country (res_task r);
     row_pub_number := pub_number (res_task r);
     row_kind := kind (res_task r);
     row_status := res_status_str r;
     row_http_status := res_http_status r;
     row_bytes := res_bytes_written r;
     row_message := if res_success r then "ok" else "error";
     row_out_path := res_out_path r |}.

(** [for fut in as_completed(futures)]: [fut.result()] returns the value
    or re-raises the exception of the call. *)
Fixpoint log_completed (futures : list (res Result)) : M State unit :=
  match futures with
  | [] => ret tt
  | Ok r :: rest =>
      let* i := tick_clock in
      append_log (log_row_of (clock_text env i) r) ;;
      log_completed rest
  | Raise e :: _ => raise e
  end.

Fixpoint run_chunks (chunks : list (list DownloadTask)) : M State unit :=
  match chunks with
  | [] => ret tt
  | chunk :: rest =>
      let* futures := submit_all chunk in
      log_completed futures ;;
      run_chunks rest
  end.

Definition run_bulk (tasks : list DownloadTask) (chunk_size : nat) : M State unit :=
  init_log ;;
  os_makedirs OUT_DIR ;;
  run_chunks (chunked tasks chunk_size).

End WithEnv.

(** *** Observations on states and traces *)

Definition is_get (e : event) : bool :=
  match e with EvGet _ => true | _ => false end.

Definition is_auth (e : event) : bool :=
  match e with EvAuthPost => true | _ => false end.

Definition is_write (e : event) : bool :=
  match e with EvWriteFile _ _ => true | _ => false end.

(** A request sent over the network: a token fetch or an image request. *)
Definition is_network (e : event) : bool := is_get e || is_auth e.

Fixpoint count (p : event -> bool) (evs : list event) : nat :=
  match evs with
  | [] => 0
  | e :: rest => (if p e then 1 else 0) + count p rest
  end.

(** The pre-check of [download_one]:
    [os.path.exists(out_path) and os.path.getsize(out_path) > 1024]. *)
Definition already_downloaded (s : State) (task : DownloadTask) : bool :=
  match fs s !! out_path_for task with
  | Some data => (1024 <? len data)%Z
  | None => false
  end.

(** The state of a process that has just started, over the files [files]
    and the log [log]. *)
Definition start (files : gmap string string) (log : option (list csv_record)) : State :=
  {| fs := files; _token := None; log_file := log;
     headers_Authorization := ""; last_msg := MsgEmpty; http_status := 0;
     n_auth := 0; n_get := 0; n_random := 0; n_clock := 0; trace := [] |}.

(** The records of the log once [init_log] has run. *)
Definition rows_of (log : option (list csv_record)) : list csv_record :=
  match log with None => [Header] | Some l => l end.




(** *** Concrete inputs *)

Definition sample_task : DownloadTask :=
  {| pub_number := "0884389"; kind := "A1"; country := COUNTRY |}.

(** An answer of the image endpoint with no [Retry-After] header. *)
Definition response (c : Z) (body : string) : get_reply :=
  GetResponse {| status_code := c; header_Retry_After := None; content := body |}.

(** An environment whose endpoints always answer the same way. *)
Definition env_const (auth : auth_reply) (reply : get_reply) : Env :=
  {| auth_server := fun _ => auth;
     image_server := fun _ _ => reply;
     random_source := fun _ => 1 # 2;
     clock_text := fun _ => "2026-01-01 00:00:00" |}.

Definition grant : auth_reply := AuthResponse 200 (JsonToken "token-1").

(** [download_one] classifies the answer as a hard HTTP failure: the attempt
    returns the "failed" tuple and leaves the message ["HTTP <status>: ..."]. *)
Definition hard_fails (env : Env) (task : DownloadTask) (url out : string)
    (attempt : nat) (s : State) (c : Z) : Prop :=
  exists s', attempt_body env task url out attempt s =
               (Ok (Some (failed task c out)), s') /\
             exists snippet, last_msg s' = MsgHTTP c snippet.

Definition is_2xx (c : Z) : Prop := (200 <= c < 300)%Z.

Definition big_pdf : string := "%PDF-1.4 " +:+ String.concat "" (replicate 1100 "x").


Definition tiny_pdf : string := "%PDF-1.4 tiny".


End FrontPage.

(** ** The rate limiter of [patent-first-page-downloader.py] *)

Module RateLimiter.

Local Open Scope Q_scope.

(** [RateLimiter.__init__]: [self.min_interval = 1.0 / max(rate_per_sec, 0.0001)]. *)
Definition min_interval_of (rate_per_sec : Q) : Q :=
  1 / Qmax rate_per_sec (1 # 10000).

(** [wait_for = self.min_interval - (now - self.last)]. *)
Definition wait_for (min_interval now last : Q) : Q :=
  min_interval - (now - last).

(** Where a thread stands in [wait]. *)
Inductive pc : Type :=
| Idle                      (* outside [wait], or blocked on [with self.lock] *)
| Entered                   (* holds the lock, before [now = time.time()] *)
| HasNow (now : Q)          (* before [if wait_for > 0] *)
| Sleeping (wake : Q)       (* inside [time.sleep(wait_for)] *)
| Slept                     (* before [self.last = time.time()] *)
| Stamped.                  (* before the lock is released *)

(** The limiter shared by all threads, the wall clock, and the dispatch
    timestamps recorded so far (newest first). *)
Record Machine : Type := {
  clock : Q;
  last : Q;
  lock : option nat;
  pcs : nat -> pc;
  stamps : list Q
}.

(** [RateLimiter(rate)] at wall-clock time [t0]: [self.last = 0.0]. *)
Definition init (t0 : Q) : Machine :=
  {| clock := t0; last := 0; lock := None; pcs := fun _ => Idle; stamps := [] |}.

(** The program points with thread [t] moved to [p]. *)
Definition upd (t : nat) (p : pc) (f : nat -> pc) : nat -> pc :=
  fun t' => if Nat.eqb t t' then p else f t'.

Definition set_pc (t : nat) (p : pc) (m : Machine) : Machine :=
  {| clock := clock m; last := last m; lock := lock m;
     pcs := upd t p (pcs m); stamps := stamps m |}.

(** What can happen next: time passes, or thread [t] takes its next step. *)
Inductive action : Type :=
| Tick (d : Q)
| Acquire (t : nat)
| ReadNow (t : nat)
| Decide (t : nat)
| Wake (t : nat)
| Stamp (t : nat)
| Release (t : nat).

Definition Qlt_bool (a b : Q) : bool := negb (Qle_bool b a).

(** One atomic step.  [None]: the step is not enabled.  The clock never goes
    back, and [time.sleep(d)] returns no earlier than [d] after it starts. *)
Definition exec (min_interval : Q) (a : action) (m : Machine) : option Machine :=
  match a with
  | Tick d =>
      if Qle_bool 0 d
      then Some {| clock := clock m + d; last := last m; lock := lock m;
                   pcs := pcs m; stamps := stamps m |}
      else None
  | Acquire t =>
      match lock m, pcs m t with
      | None, Idle =>
          Some {| clock := clock m; last := last m; lock := Some t;
                  pcs := upd t Entered (pcs m); stamps := stamps m |}
      | _, _ => None
      end
  | ReadNow t =>
      match pcs m t with
      | Entered => Some (set_pc t (HasNow (clock m)) m)
      | _ => None
      end
  | Decide t =>
      match pcs m t with
      | HasNow now =>
          let w := wait_for min_interval now (last m) in
          if Qlt_bool 0 w
          then Some (set_pc t (Sleeping (clock m + w)) m)
          else Some (set_pc t Slept m)
      | _ => None
      end
  | Wake t =>
      match pcs m t with
      | Sleeping wake =>
          if Qle_bool wake (clock m) then Some (set_pc t Slept m) else None
      | _ => None
      end
  | Stamp t =>
      match pcs m t with
      | Slept =>
          Some {| clock := clock m; last := clock m; lock := lock m;
                  pcs := upd t Stamped (pcs m);
                  stamps := clock m :: stamps m |}
      | _ => None
      end
  | Release t =>
      match pcs m t with
      | Stamped =>
          Some {| clock := clock m; last := last m; lock := None;
                  pcs := upd t Idle (pcs m); stamps := stamps m |}
      | _ => None
      end
  end.

(** A schedule: the steps taken, in order. *)
Fixpoint run (min_interval : Q) (schedule : list action) (m : Machine) : option Machine :=
  match schedule with
  | [] => Some m
  | a :: rest =>
      match exec min_interval a m with
      | Some m' => run min_interval rest m'
      | None => None
      end
  end.

(** Every recorded timestamp is at least [gap] after the one recorded before
    it; the oldest is measured against the initial [self.last = 0.0]. *)
Fixpoint paced (gap : Q) (stamps : list Q) : Prop :=
  match stamps with
  | [] => True
  | t :: older => gap <= t - hd 0 older /\ paced gap older
  end.

(** A complete call of [wait] by thread [t]: one that finds the interval
    already over, and one that sleeps while [d] seconds pass. *)
Definition wait_at_once (t : nat) : list action :=
  [Acquire t; ReadNow t; Decide t; Stamp t; Release t].

Definition wait_sleeping (t : nat) (d : Q) : list action :=
  [Acquire t; ReadNow t; Decide t; Tick d; Wake t; Stamp t; Release t].



(** The limiter of the script: [rate_limiter = RateLimiter(RATE_PER_SEC)]. *)
Definition rate_limiter_min_interval : Q := min_interval_of FrontPage.RATE_PER_SEC.

End RateLimiter.


(** ** The bulk downloader: [epo-bulk-downloader.py] *)

Module Bulk.
Import Py.

(** *** Configuration constants *)

Definition BASE : string :=
  "https://publication-bdds.apps.epo.org/bdds/bdds-bff-service/prod/api".
Definition PRODUCT_ID : string := "32".
Definition PRODUCT_URL : string := BASE +:+ "/products/" +:+ PRODUCT_ID.

(** [DOWNLOAD_URL.format(delivery_id=..., file_id=...)]. *)
Definition DOWNLOAD_URL (delivery_id file_id : string) : string :=
  BASE +:+ "/products/" +:+ PRODUCT_ID +:+ "/delivery/" +:+ delivery_id
       +:+ "/file/" +:+ file_id +:+ "/download".

Definition CHUNK_SIZE : Z := 1024 * 1024.

(** *** JSON extraction helpers *)

(** Parsed JSON; [JNull] is Python's [None].  A dict keeps its items in
    order, and a lookup finds the first item with the key. *)
#[local] Set Warnings "-register-all".
Inductive json : Type :=
| JNull
| JBool (b : bool)
| JNum (n : Z)
| JStr (s : string)
| JList (items : list json)
| JDict (items : list (string * json)).
#[local] Set Warnings "register-all".

Abbreviation dict := (list (string * json)).

(** [d.get(k)], with [None] of type [option] for a missing key. *)
Fixpoint dict_get (k : string) (d : dict) : option json :=
  match d with
  | [] => None
  | (k', v) :: rest => if String.eqb k k' then Some v else dict_get k rest
  end.

Definition is_None (v : json) : bool :=
  match v with JNull => true | _ => false end.

(** [pick_first(d, keys)]: [k in d and d[k] is not None]. *)
Fixpoint pick_first (d : dict) (keys : list string) : json :=
  match keys with
  | [] => JNull
  | k :: rest =>
      match dict_get k d with
      | Some v => if is_None v then pick_first d rest else v
      | None => pick_first d rest
      end
  end.

Definition delivery_id_keys : list string :=
  ["id"; "deliveryId"; "delivery_id"; "deliveryID"; "uuid"; "key"].

Definition find_delivery_id (delivery : dict) : json :=
  pick_first delivery delivery_id_keys.

Definition find_file_id (file_obj : dict) : json :=
  pick_first file_obj ["id"; "fileId"; "file_id"; "fileID"; "uuid"; "key"].

(** [find_files_list]: the first of the keys whose value is a list. *)
Fixpoint first_list (delivery : dict) (keys : list string) : list json :=
  match keys with
  | [] => []
  | k :: rest =>
      match dict_get k delivery with
      | Some (JList v) => v
      | _ => first_list delivery rest
      end
  end.

Definition find_files_list (delivery : dict) : list json :=
  first_list delivery ["files"; "file"; "items"; "content"; "assets"; "documents"].

(** Python truth of a JSON value, for [x or "download.bin"]. *)
Definition truthy (v : json) : bool :=
  match v with
  | JNull => false
  | JBool b => b
  | JNum n => negb (n =? 0)%Z
  | JStr s => negb (String.eqb s "")
  | JList l => match l with [] => false | _ => true end
  | JDict d => match d with [] => false | _ => true end
  end.

Definition find_file_name (file_obj : dict) : json :=
  let v := pick_first file_obj ["name"; "fileName"; "filename"; "originalName"] in
  if truthy v then v else JStr "download.bin".

(** The delivery lookup of [main]: the loop over the nested keys, which
    leaves [(delivery_id, d)]. *)
Fixpoint main_nested_lookup (d : dict) (nested_keys : list string) : json * dict :=
  match nested_keys with
  | [] => (JNull, d)
  | nested_key :: rest =>
      match dict_get nested_key d with
      | Some (JDict inner) =>
          let delivery_id := find_delivery_id inner in
          if is_None delivery_id then main_nested_lookup d rest
          else (delivery_id, inner)
      | _ => main_nested_lookup d rest
      end
  end.

Definition main_delivery_lookup (d : dict) : json * dict :=
  let delivery_id := find_delivery_id d in
  if is_None delivery_id
  then main_nested_lookup d ["delivery"; "meta"; "data"]
  else (delivery_id, d).

(** *** The file system and the network *)

Inductive node : Type :=
| File (data : string)
| Dir.

(** Atomic file-system operations, as the kernel applies them. *)
Inductive fs_op : Type :=
| OpMkdir (dir : string)              (* [mkdir(parents=True, exist_ok=True)] *)
| OpOpenWb (path : string)            (* [open(path, "wb")]: create or truncate *)
| OpAppend (path data : string)       (* [f.write(data)] *)
| OpReplace (src dst : string)        (* [src.replace(dst)]: atomic rename *)
| OpUnlink (path : string).

Definition apply_op (op : fs_op) (fs : gmap string node) : gmap string node :=
  match op with
  | OpMkdir dir =>
      match fs !! dir with
      | None => <[dir := Dir]> fs
      | Some _ => fs
      end
  | OpOpenWb path => <[path := File ""]> fs
  | OpAppend path data =>
      match fs !! path with
      | Some (File old) => <[path := File (old +:+ data)]> fs
      | _ => fs
      end
  | OpReplace src dst =>
      match fs !! src with
      | Some n => <[dst := n]> (delete src fs)
      | None => fs
      end
  | OpUnlink path => delete path fs
  end.

(** The file system after the operations [ops], in order. *)
Definition replay (ops : list fs_op) (fs : gmap string node) : gmap string node :=
  foldl (fun f op => apply_op op f) fs ops.

Inductive head_reply : Type :=
| HeadNetworkError                    (* [requests.head] raises *)
| HeadResponse (status : Z) (content_length : option string).

(** A streamed GET: the status, the chunks [iter_content] yields, and
    whether the stream breaks (raises) after them. *)
Inductive stream_reply : Type :=
| StreamNetworkError
| StreamResponse (status : Z) (chunks : list string) (breaks : bool).

Record Env : Type := {
  head_server : nat -> string -> head_reply;
  stream_server : nat -> string -> stream_reply
}.

Inductive event : Type :=
| EvHead (url : string)
| EvGetStream (url : string)
| EvSleep (seconds : Q)
| EvFs (op : fs_op).

Record State : Type := {
  fs : gmap string node;
  n_head : nat;
  n_stream : nat;
  trace : list event
}.

Definition add_event (e : event) (s : State) : State :=
  {| fs := fs s; n_head := n_head s; n_stream := n_stream s;
     trace := trace s ++ [e] |}.

Definition emit (e : event) : M State unit := modify (add_event e).

Definition tick_head : M State nat :=
  let* s0 := get in
  modify (fun s => {| fs := fs s; n_head := S (n_head s); n_stream := n_stream s;
                      trace := trace s |}) ;;
  ret (n_head s0).

Definition tick_stream : M State nat :=
  let* s0 := get in
  modify (fun s => {| fs := fs s; n_head := n_head s; n_stream := S (n_stream s);
                      trace := trace s |}) ;;
  ret (n_stream s0).

(** One file-system operation: the state changes and the trace records it. *)
Definition do_fs (op : fs_op) : M State unit :=
  modify (fun s => {| fs := apply_op op (fs s); n_head := n_head s;
                      n_stream := n_stream s; trace := trace s ++ [EvFs op] |}).

Definition time_sleep (seconds : Q) : M State unit := emit (EvSleep seconds).

Section WithEnv.
Variable env : Env.

(** *** HTTP helpers *)

(** The body of the loop of [head_content_length]. *)
Definition head_attempt (url : string) (base_sleep : Q) (i : nat)
    : M State (option (option Z)) :=
  try_except
    (let* k := tick_head in
     emit (EvHead url) ;;
     match head_server env k url with
     | HeadNetworkError => raise ConnectionError
     | HeadResponse status cl =>
         raise_for_status status ;;
         match cl with
         | Some text =>
             match int text with
             | Some n => ret (Some (Some n))
             | None => raise ValueError
             end
         | None => ret (Some None)
         end
     end)
    is_Exception
    (fun _ =>
       time_sleep (base_sleep * inject_Z (2 ^ Z.of_nat i)) ;;
       ret None).

Definition head_content_length (url : string) (retries : nat) (base_sleep : Q)
    : M State (option Z) :=
  for_loop (range 0 retries) (head_attempt url base_sleep)
    (* If still failing, treat as unknown size *)
    (ret None).

(** The sibling path that carries the [.part] suffix:
    [out_path.with_suffix(out_path.suffix + ".part")]. *)
Definition part_path (out_path : string) : string := out_path +:+ ".part".

(** [out_path.parent]: the path up to its last slash. *)
Fixpoint parent_aux (acc cur : string) (s : string) : string :=
  match s with
  | EmptyString => acc
  | String c rest =>
      if Ascii.eqb c "/" then parent_aux cur (cur +:+ "/") rest
      else parent_aux acc (cur +:+ String c EmptyString) rest
  end.

Definition parent (path : string) : string :=
  match parent_aux "" "" path with
  | EmptyString => "."
  | p => p
  end.

(** [for b in r.iter_content(...)]: [if b: f.write(b); written += len(b)]. *)
Fixpoint write_chunks (tmp_path : string) (chunks : list string) (written : Z)
    : M State Z :=
  match chunks with
  | [] => ret written
  | b :: rest =>
      if String.eqb b ""
      then write_chunks tmp_path rest written
      else do_fs (OpAppend tmp_path b) ;;
           write_chunks tmp_path rest (written + len b)
  end.

(** [dir.mkdir(parents=True, exist_ok=True)]: fails on a regular file. *)
Definition mkdir (dir : string) : M State unit :=
  let* s := get in
  match fs s !! dir with
  | Some (File _) => raise OSError
  | _ => do_fs (OpMkdir dir)
  end.

(** [open(path, "wb")]: fails on a directory. *)
Definition open_wb (path : string) : M State unit :=
  let* s := get in
  match fs s !! path with
  | Some Dir => raise OSError
  | _ => do_fs (OpOpenWb path)
  end.

(** [src.replace(dst)]: fails when [dst] is a directory. *)
Definition replace (src dst : string) : M State unit :=
  let* s := get in
  match fs s !! dst with
  | Some Dir => raise OSError
  | _ => do_fs (OpReplace src dst)
  end.

Definition download_stream (url out_path : string) : M State Z :=
  mkdir (parent out_path) ;;
  let tmp_path := part_path out_path in
  let* k := tick_stream in
  emit (EvGetStream url) ;;
  match stream_server env k url with
  | StreamNetworkError => raise ConnectionError
  | StreamResponse status chunks breaks =>
      raise_for_status status ;;
      open_wb tmp_path ;;
      let* written := write_chunks tmp_path chunks 0 in
      (if breaks then raise ConnectionError else ret tt) ;;
      replace tmp_path out_path ;;
      ret written
  end.

(** *** Integrity checks *)

Definition is_fully_downloaded (path download_url : string) : M State bool :=
  let* s := get in
  match fs s !! path with
  | Some (File data) =>
      let local_size := len data in
      if (local_size <=? 0)%Z then ret false
      else
        let* remote_size := head_content_length download_url 4 (6 # 10) in
        match remote_size with
        | None => ret false
        | Some remote =>
            if negb (local_size =? remote)%Z then ret false else ret true
        end
  | _ => ret false
  end.

End WithEnv.

(** The file-system operations among the events. *)
Fixpoint fs_ops (evs : list event) : list fs_op :=
  match evs with
  | [] => []
  | EvFs op :: rest => op :: fs_ops rest
  | _ :: rest => fs_ops rest
  end.

Fixpoint count_heads (evs : list event) : nat :=
  match evs with
  | [] => 0
  | EvHead _ :: rest => S (count_heads rest)
  | _ :: rest => count_heads rest
  end.

(** The regular file an observer sees at [path], if any. *)
Definition visible_file (fs : gmap string node) (path : string) : option string :=
  match fs !! path with
  | Some (File data) => Some data
  | _ => None
  end.

(** A [HEAD] answer from which no size can be read: the request fails, the
    status is 4xx or 5xx, or the header does not parse. *)
Definition head_fails (r : head_reply) : bool :=
  match r with
  | HeadNetworkError => true
  | HeadResponse status cl =>
      ((400 <=? status)%Z && (status <? 600)%Z)
      || match cl with
         | Some text => match int text with Some _ => false | None => true end
         | None => false
         end
  end.

(** The size a [HEAD] answer gives. *)
Definition head_size (r : head_reply) : option Z :=
  match r with
  | HeadResponse _ (Some text) => int text
  | _ => None
  end.

(** What [retries] probes starting with the [k]-th answer of the server
    yield: the first answer that does not fail decides. *)
Fixpoint head_result (env : Env) (url : string) (k retries : nat) : option Z :=
  match retries with
  | O => None
  | S r =>
      let reply := head_server env k url in
      if head_fails reply then head_result env url (S k) r else head_size reply
  end.

(** A key whose value is present and not [None]. *)
Definition usable (d : dict) (k : string) : bool :=
  match dict_get k d with
  | Some v => negb (is_None v)
  | None => false
  end.

(** A nested key whose value is a dict that holds a delivery id. *)
Definition nested_usable (d : dict) (k : string) : bool :=
  match dict_get k d with
  | Some (JDict inner) => negb (is_None (find_delivery_id inner))
  | _ => false
  end.

(** The bytes a stream delivers. *)
Definition stream_data (chunks : list string) : string := String.concat "" chunks.

Definition start (files : gmap string node) : State :=
  {| fs := files; n_head := 0; n_stream := 0; trace := [] |}.

End Bulk.

(** ** More of [epo-bulk-downloader.py]: [get_json] and the file loop of [main] *)

Module BulkMain.
Import Py Bulk.

(** *** [get_json] *)

(** What [requests.get(url, headers=HEADERS, timeout=60)] yields and how
    [r.json()] reads the body ([None]: the body is not JSON). *)
Inductive json_reply : Type :=
| JsonNetworkError
| JsonResponse (status : Z) (body : option json).

(** The endpoint, asked for its n-th answer, and [str(e)] for the exception
    in which the n-th request ended, as the library words it. *)
Record JsonEnv : Type := {
  json_server : nat -> string -> json_reply;
  error_text : nat -> string
}.

Inductive json_event : Type :=
| EvGetJson (url : string)
| EvJsonSleep (seconds : Q).

(** The number of requests sent, the local [last] of [get_json] ([None]
    until an attempt has failed) and the trace. *)
Record JsonState : Type := {
  n_json : nat;
  last : option string;
  json_trace : list json_event
}.

Definition json_start : JsonState :=
  {| n_json := 0; last := None; json_trace := [] |}.

Definition json_emit (e : json_event) : M JsonState unit :=
  modify (fun s => {| n_json := n_json s; last := last s;
                      json_trace := json_trace s ++ [e] |}).

Definition json_tick : M JsonState nat :=
  let* s0 := get in
  modify (fun s => {| n_json := S (n_json s); last := last s;
                      json_trace := json_trace s |}) ;;
  ret (n_json s0).

Definition set_last (l : option string) : M JsonState unit :=
  modify (fun s => {| n_json := n_json s; last := l;
                      json_trace := json_trace s |}).

Section WithJsonEnv.
Variable env : JsonEnv.

(** The body of [for i in range(retries)] in [get_json]. *)
Definition get_json_attempt (url : string) (base_sleep : Q) (i : nat)
    : M JsonState (option json) :=
  let* k := json_tick in
  try_except
    (json_emit (EvGetJson url) ;;
     match json_server env k url with
     | JsonNetworkError => raise ConnectionError
     | JsonResponse status body =>
         raise_for_status status ;;
         match body with
         | Some v => ret (Some v)
         | None => raise JSONDecodeError
         end
     end)
    is_Exception
    (fun _ =>
       set_last (Some (error_text env k)) ;;
       json_emit (EvJsonSleep (base_sleep * inject_Z (2 ^ Z.of_nat i))) ;;
       ret None).

(** The message [f"GET failed: {url}\nLast error: {last}"]. *)
Definition get_json_message (url : string) (l : option string) : string :=
  "GET failed: " +:+ url +:+ String "010" "Last error: "
    +:+ match l with Some text => text | None => "None" end.

Definition get_json (url : string) (retries : nat) (base_sleep : Q)
    : M JsonState json :=
  set_last None ;;
  for_loop (range 0 retries) (get_json_attempt url base_sleep)
    (let* s := get in
     raise (RuntimeError (get_json_message url (last s)))).

End WithJsonEnv.


(** The pauses of [n] failed attempts that start with attempt [i]. *)
Fixpoint backoff_pauses (base_sleep : Q) (i n : nat) : list Q :=
  match n with
  | O => []
  | S n' => (base_sleep * inject_Z (2 ^ Z.of_nat i))%Q
            :: backoff_pauses base_sleep (S i) n'
  end.


Definition Qsum (l : list Q) : Q := foldr Qplus 0%Q l.



(** *** The file loop of [main] *)

Section WithEnv.
Variable env : Env.

(** [path.exists()]. *)
Definition path_exists (path : string) : M State bool :=
  let* s := get in
  ret (bool_decide (is_Some (fs s !! path))).

(** [path.unlink(missing_ok=True)]: fails on a directory. *)
Definition unlink (path : string) : M State unit :=
  let* s := get in
  match fs s !! path with
  | Some Dir => raise OSError
  | _ => do_fs (OpUnlink path)
  end.

(** The body of [for fobj in files] in [main] from the point where [name],
    [out_path] and [url] are known; [Ok tt] is the way on to the next file.
    Console output is left out. *)
Definition main_fetch_file (name out_path url : string) : M State unit :=
  (* Skip only if verified complete by HEAD Content-Length *)
  let* complete := is_fully_downloaded env out_path url in
  if complete then ret tt
  else
    (* If exists but incomplete/unverifiable, remove and re-download *)
    let* present := path_exists out_path in
    (if present then unlink out_path else ret tt) ;;
    let* written := download_stream env url out_path in
    (* Optional: verify again after download *)
    let* verified := is_fully_downloaded env out_path url in
    if negb verified
    then raise (RuntimeError ("Downloaded file failed verification: " +:+ name))
    else ret tt.

End WithEnv.

(** The file lookup of [main]: the loop over the nested keys, which leaves
    [(file_id, fobj)]. *)
Fixpoint main_file_nested_lookup (fobj : dict) (nested_keys : list string)
    : json * dict :=
  match nested_keys with
  | [] => (JNull, fobj)
  | nested_key :: rest =>
      match dict_get nested_key fobj with
      | Some (JDict inner) =>
          let file_id := find_file_id inner in
          if is_None file_id then main_file_nested_lookup fobj rest
          else (file_id, inner)
      | _ => main_file_nested_lookup fobj rest
      end
  end.

Definition main_file_lookup (fobj : dict) : json * dict :=
  let file_id := find_file_id fobj in
  if is_None file_id
  then main_file_nested_lookup fobj ["file"; "data"; "meta"]
  else (file_id, fobj).

(** A nested key whose value is a dict that holds a file id. *)
Definition nested_file_usable (fobj : dict) (k : string) : bool :=
  match dict_get k fobj with
  | Some (JDict inner) => negb (is_None (find_file_id inner))
  | _ => false
  end.

(** A streamed GET that is refused: the request fails, or the status is 4xx
    or 5xx. *)
Definition stream_refused (r : stream_reply) : bool :=
  match r with
  | StreamNetworkError => true
  | StreamResponse status _ _ => (400 <=? status)%Z && (status <? 600)%Z
  end.

(** A key whose value is a list. *)
Definition list_valued (d : dict) (k : string) : bool :=
  match dict_get k d with
  | Some (JList _) => true
  | _ => false
  end.

End BulkMain.

(** ** Reasoning rules for the monad *)

Module PyFacts.
Import Py.

Section Rules.
Context {S : Type}.

Lemma wp_ret {A} (a : A) (Q : res A -> S -> Prop) s :
  Q (Ok a) s -> wp (ret a) Q s.
Proof. intros H; exact H. Qed.

Lemma wp_raise {A} (e : exn) (Q : res A -> S -> Prop) s :
  Q (Raise e) s -> wp (raise e) Q s.
Proof. intros H; exact H. Qed.

Lemma wp_get (Q : res S -> S -> Prop) s :
  Q (Ok s) s -> wp get Q s.
Proof. intros H; exact H. Qed.

Lemma wp_modify (f : S -> S) (Q : res unit -> S -> Prop) s :
  Q (Ok tt) (f s) -> wp (modify f) Q s.
Proof. intros H; exact H. Qed.

Lemma wp_bind {A B} (m : M S A) (k : A -> M S B) (Q : res B -> S -> Prop) s :
  wp m (fun r s' => match r with
                    | Ok a => wp (k a) Q s'
                    | Raise e => Q (Raise e) s'
                    end) s ->
  wp (bind m k) Q s.
Proof.
  unfold wp, bind. destruct (m s) as [[a|e] s']; simpl; auto.
Qed.

Lemma wp_try_except {A} (body : M S A) (catches : exn -> bool)
    (handler : exn -> M S A) (Q : res A -> S -> Prop) s :
  wp body (fun r s' => match r with
                       | Ok a => Q (Ok a) s'
                       | Raise e => if catches e then wp (handler e) Q s'
                                    else Q (Raise e) s'
                       end) s ->
  wp (try_except body catches handler) Q s.
Proof.
  unfold wp, try_except. destruct (body s) as [[a|e] s']; simpl; auto.
  destruct (catches e); auto.
Qed.

Lemma wp_mono {A} (m : M S A) (Q Q' : res A -> S -> Prop) s :
  wp m Q s -> (forall r s', Q r s' -> Q' r s') -> wp m Q' s.
Proof. unfold wp; auto. Qed.


(** The loop rule: [I i] holds before the iteration at position [i]. *)
Lemma wp_for_loop {X R} (xs : list X) (body : X -> M S (option R)) after
    (I : nat -> S -> Prop) (Q : res R -> S -> Prop) :
  (forall i x s, xs !! i = Some x -> I i s ->
     wp (body x) (fun r s' => match r with
                              | Ok None => I (Datatypes.S i) s'
                              | Ok (Some v) => Q (Ok v) s'
                              | Raise e => Q (Raise e) s'
                              end) s) ->
  (forall s, I (length xs) s -> wp after Q s) ->
  forall s, I 0%nat s -> wp (for_loop xs body after) Q s.
Proof.
  revert I. induction xs as [|x xs IH]; intros I Hbody Hafter s HI; simpl.
  - apply Hafter, HI.
  - apply wp_bind.
    eapply wp_mono; [apply (Hbody 0%nat x s); [reflexivity|exact HI]|].
    intros [[v|]|e] s' H; cbv beta iota in *.
    + exact H.
    + apply (IH (fun i => I (Datatypes.S i))); [|exact Hafter|exact H].
      intros i y s0 Hy. apply (Hbody (Datatypes.S i)). exact Hy.
    + exact H.
Qed.

End Rules.

Lemma wp_elim {S A} (m : M S A) (Q : res A -> S -> Prop) s :
  wp m Q s -> exists r s', m s = (r, s') /\ Q r s'.
Proof. unfold wp. destruct (m s) as [r s']. eauto. Qed.

Lemma wp_eq {S A} (m : M S A) s r0 s0 :
  wp m (fun r s' => r = r0 /\ s' = s0) s -> m s = (r0, s0).
Proof. unfold wp. destruct (m s) as [r s']. simpl. intros [-> ->]. reflexivity. Qed.

Lemma wp_of_eq {S A} (m : M S A) (Q : res A -> S -> Prop) s r s' :
  m s = (r, s') -> Q r s' -> wp m Q s.
Proof. unfold wp. intros ->. auto. Qed.

(** One symbolic step of a computation. *)
Ltac wp_step :=
  lazymatch goal with
  | |- wp (bind _ _) _ _ => apply wp_bind
  | |- wp (ret _) _ _ => apply wp_ret
  | |- wp (raise _) _ _ => apply wp_raise
  | |- wp get _ _ => apply wp_get
  | |- wp (modify _) _ _ => apply wp_modify
  | |- wp (try_except _ _ _) _ _ => apply wp_try_except
  end; cbv beta iota zeta.

(** [int] accepts whatever [isdigit] accepts. *)
Lemma digit_not_space c : is_ascii_digit c = true -> is_space c = false.
Proof.
  unfold is_ascii_digit, is_space. cbv zeta.
  intros [H1 H2]%andb_prop.
  apply Nat.leb_le in H1. apply Nat.leb_le in H2.
  apply orb_false_intro.
  - apply Nat.eqb_neq. lia.
  - apply andb_false_iff. right. apply Nat.leb_gt. lia.
Qed.

Lemma digit_not_sign c :
  is_ascii_digit c = true -> c <> "-"%char /\ c <> "+"%char.
Proof.
  unfold is_ascii_digit. intros [H1 H2]%andb_prop.
  apply Nat.leb_le in H1.
  split; intros ->; vm_compute in H1; lia.
Qed.

Lemma all_digits_rstrip s : all_digits s = true -> rstrip s = s.
Proof.
  induction s as [|c s IH]; simpl; [reflexivity|].
  intros [Hc Hs]%andb_prop. rewrite (IH Hs).
  destruct s; [|reflexivity].
  now rewrite (digit_not_space c Hc).
Qed.

Lemma all_digits_lstrip s : all_digits s = true -> lstrip s = s.
Proof.
  destruct s as [|c s]; simpl; [reflexivity|].
  intros [Hc _]%andb_prop. now rewrite (digit_not_space c Hc).
Qed.

Lemma all_digits_literal s : forall prev acc,
  all_digits s = true -> (0 <= acc)%Z -> (s <> EmptyString \/ prev = true) ->
  exists n, literal_value prev acc s = Some n /\ (0 <= n)%Z.
Proof.
  induction s as [|c s IH]; simpl; intros prev acc Hd Hacc Hne.
  - destruct Hne as [Hne| ->]; [congruence|eauto].
  - apply andb_prop in Hd as [Hc Hs]. rewrite Hc.
    apply IH; [exact Hs|lia|now right].
Qed.

Lemma int_isdigit s :
  isdigit s = true -> exists n, int s = Some n /\ (0 <= n)%Z.
Proof.
  unfold isdigit, int, strip. destruct s as [|c s]; [discriminate|].
  intros Hd. rewrite (all_digits_lstrip _ Hd), (all_digits_rstrip _ Hd).
  assert (Hc : is_ascii_digit c = true) by (simpl in Hd; now apply andb_prop in Hd).
  destruct (digit_not_sign c Hc) as [Hm Hp].
  assert (Hlit : exists n, literal_value false 0 (String c s) = Some n /\ (0 <= n)%Z)
    by (apply all_digits_literal; [exact Hd|lia|now left]).
  destruct c as [[] [] [] [] [] [] [] []]; try exact Hlit; congruence.
Qed.

End PyFacts.

(** ** Facts about the front-page downloader *)

Module FrontPageFacts.
Import Py PyFacts FrontPage.

Ltac wp_simpl :=
  cbv beta iota zeta;
  cbn [fs _token log_file headers_Authorization last_msg http_status n_auth n_get
       n_random n_clock trace add_event is_RequestException] in *.

Ltac wp_prim :=
  first
  [ wp_step
  | lazymatch goal with
    | |- wp (match ?x with _ => _ end) _ _ => destruct x eqn:?
    | |- wp ?m _ _ =>
      progress unfold rate_limiter_wait, time_sleep, random_random, os_makedirs,
      os_path_exists, os_path_getsize, write_file, _get_token_raw, get_token_cached,
      refresh_token, init_log, append_log, session_get, backoff, raise_for_status,
      emit, set_fs, set_token, set_log_file, set_headers_Authorization, set_last_msg,
      set_http_status, tick_auth, tick_get, tick_random, tick_clock
    end ]; wp_simpl.

Ltac rewrite_scrutinees :=
  repeat match goal with
         | H : ?x = _ |- context [match ?x with _ => _ end] => rewrite H
         end; cbv beta iota zeta; cbn [negb].

Lemma count_app p evs1 evs2 : count p (evs1 ++ evs2) = (count p evs1 + count p evs2)%nat.
Proof. induction evs1 as [|e evs1 IH]; simpl; [reflexivity|]. rewrite IH. lia. Qed.

(** What one pass through the loop body does, by the answer of the image
    endpoint. *)
Definition attempt_post (env : Env) (task : DownloadTask) (url out : string)
    (s : State) (r : res (option Result)) (s' : State) : Prop :=
  n_get s' = S (n_get s) /\ log_file s' = log_file s /\
  exists evs, trace s' = trace s ++ evs /\ count is_get evs = 1%nat /\
  match image_server env (n_get s) (request_of url (headers_Authorization s)) with
  | GetNetworkError =>
      r = Ok None /\ fs s' = fs s /\ http_status s' = http_status s /\
      count is_write evs = 0%nat
  | GetResponse rsp =>
      let c := status_code rsp in
      http_status s' = c /\
      if (c =? 401)%Z then
        fs s' = fs s /\ count is_write evs = 0%nat /\
        (r = Ok None \/
         r = Raise (KeyError "access_token") /\
         exists st, auth_server env (n_auth s) = AuthResponse st JsonWithoutToken)
      else if bool_decide (c ∈ RETRY_STATUS) then
        r = Ok None /\ fs s' = fs s /\ count is_write evs = 0%nat
      else if negb (c =? 200)%Z then
        r = Ok (Some (failed task c out)) /\ fs s' = fs s /\
        count is_write evs = 0%nat /\ last_msg s' = MsgHTTP c (snippet_of rsp)
      else if negb (startswith (content rsp) "%PDF") then
        r = Ok (Some (failed task c out)) /\ fs s' = fs s /\
        count is_write evs = 0%nat /\
        last_msg s' = MsgNotPDF (String.substring 0 20 (content rsp))
      else
        r = Ok (Some (downloaded task c out (content rsp))) /\
        fs s' = <[out := content rsp]> (fs s) /\
        evs = [EvRateWait; EvGet (request_of url (headers_Authorization s));
               EvWriteFile out (content rsp)]
  end.

Lemma attempt_body_spec env task url out a s :
  wp (attempt_body env task url out a) (attempt_post env task url out s) s.
Proof.
  unfold attempt_body.
  repeat wp_prim.
  all: unfold attempt_post; wp_simpl.
  all: split; [reflexivity|split; [reflexivity|]].
  all: eexists; split; [rewrite <- ?app_assoc; reflexivity|split;[reflexivity|]].
  all: rewrite_scrutinees.
  all: try (repeat split;
            first [reflexivity | left; reflexivity
                  | right; split; [reflexivity|eexists; eassumption]]).
  (* [int] cannot fail on what [isdigit] accepted *)
  apply andb_prop in Heqb1 as [_ Hd].
  apply int_isdigit in Hd as (n & Hn & _). congruence.
Qed.






Ltac fs_facts :=
  repeat match goal with
         | H : bool_decide _ = true |- _ => apply bool_decide_eq_true in H
         | H : bool_decide _ = false |- _ => apply bool_decide_eq_false in H
         | H : (_ <? _)%Z = true |- _ => apply Z.ltb_lt in H
         | H : (_ <? _)%Z = false |- _ => apply Z.ltb_ge in H
         end; simplify_eq.

Lemma download_one_skip env task s data :
  fs s !! out_path_for task = Some data -> (1024 < len data)%Z ->
  download_one env task s =
    (Ok (skipped task (len data) (out_path_for task)),
     add_event (EvMakedirs OUT_DIR) s).
Proof.
  intros Hfile Hbig. apply wp_eq. unfold download_one.
  repeat wp_prim.
  all: fs_facts; try lia.
  all: try (exfalso; eauto; fail).
  split; reflexivity.
Qed.

Lemma wp_submit env t (Q : res (res Result) -> State -> Prop) s :
  wp (download_one env t) (fun r s' => Q (Ok r) s') s -> wp (submit env t) Q s.
Proof. unfold wp, submit. destruct (download_one env t s). auto. Qed.

Lemma chunked_singleton {A} (x : A) n : chunked [x] (S n) = [[x]].
Proof.
  unfold chunked. cbn [length chunked_aux take drop].
  rewrite take_nil. reflexivity.
Qed.

(** C10: when the pre-check skips a task (its output file exists with more
    than 1024 bytes), [download_one] returns success, status "skipped", HTTP
    status 200 and the size of the existing file, having sent nothing over the
    network; the row that [run_bulk] appends to the log reports the same. *)
Theorem skipped_result_reports_200 env task s data n :
  fs s !! out_path_for task = Some data -> (1024 < len data)%Z ->
  download_one env task s =
    (Ok {| res_task := task; res_success := true; res_status_str := "skipped";
           res_http_status := 200; res_bytes_written := len data;
           res_out_path := out_path_for task |},
     add_event (EvMakedirs OUT_DIR) s) /\
  count is_network [EvMakedirs OUT_DIR] = 0%nat /\
  exists s' evs,
    run_bulk env [task] (S n) s = (Ok tt, s') /\
    log_file s' = Some (rows_of (log_file s) ++
      [Row {| row_ts := clock_text env (n_clock s);
              row_country := country task;
              row_pub_number := pub_number task;
              row_kind := kind task;
              row_status := "skipped";
              row_http_status := 200;
              row_bytes := len data;
              row_message := "ok";
              row_out_path := out_path_for task |}]) /\
    trace s' = trace s ++ evs /\ count is_network evs = 0%nat.
Proof.
  intros Hfile Hbig.
  split; [exact (download_one_skip env task s data Hfile Hbig)|].
  split; [reflexivity|].
  destruct (wp_elim (run_bulk env [task] (S n))
    (fun r s' =>
       r = Ok tt /\
       log_file s' = Some (rows_of (log_file s) ++
         [Row (log_row_of (clock_text env (n_clock s))
                 (skipped task (len data) (out_path_for task)))]) /\
       exists evs, trace s' = trace s ++ evs /\ count is_network evs = 0%nat) s)
    as (r & s' & Hrun & -> & Hlog & evs & Htr & Hnet).
  { unfold run_bulk. rewrite chunked_singleton. cbn [run_chunks submit_all].
    repeat wp_prim.
    all: apply wp_submit.
    all: eapply wp_of_eq;
      [apply (download_one_skip env task _ data); [exact Hfile|exact Hbig]|].
    all: repeat wp_prim.
    all: cbn [log_completed]; repeat wp_prim.
    all: repeat match goal with H : log_file _ = _ |- _ => rewrite H end.
    all: split; [reflexivity|]; split; [reflexivity|].
    all: eexists; split; [rewrite <- ?app_assoc; reflexivity|reflexivity]. }
  exists s', evs. split_and!; [exact Hrun|exact Hlog|exact Htr|exact Hnet].
Qed.

Lemma skipped_result_reports_200_witness :
  download_one (env_const AuthNetworkError GetNetworkError) sample_task
      (start {[out_path_for sample_task := big_pdf]} None) =
    (Ok {| res_task := sample_task; res_success := true;
           res_status_str := "skipped"; res_http_status := 200;
           res_bytes_written := len big_pdf;
           res_out_path := out_path_for sample_task |},
     add_event (EvMakedirs OUT_DIR)
       (start {[out_path_for sample_task := big_pdf]} None)) /\
  count is_network [EvMakedirs OUT_DIR] = 0%nat /\
  exists s' evs,
    run_bulk (env_const AuthNetworkError GetNetworkError) [sample_task] 100
      (start {[out_path_for sample_task := big_pdf]} None) = (Ok tt, s') /\
    log_file s' = Some (rows_of None ++
      [Row {| row_ts := "2026-01-01 00:00:00";
              row_country := "EP";
              row_pub_number := "0884389";
              row_kind := "A1";
              row_status := "skipped";
              row_http_status := 200;
              row_bytes := len big_pdf;
              row_message := "ok";
              row_out_path := out_path_for sample_task |}]) /\
    trace s' = [] ++ evs /\ count is_network evs = 0%nat.
Proof.
  apply (skipped_result_reports_200 (env_const AuthNetworkError GetNetworkError)
           sample_task (start {[out_path_for sample_task := big_pdf]} None)
           big_pdf 99).
  - vm_compute. reflexivity.
  - vm_compute. reflexivity.
Defined.






(** C4, as amended: an attempt ends in the hard HTTP failure exactly when the
    status is not 200, not 401 and not in [RETRY_STATUS]; the loop then returns
    the "failed" tuple at once, after this single request and with no file
    touched; an answer with status 200 is never a hard HTTP failure. *)
Theorem fatal_http_classification env task url out a rest after s rsp :
  image_server env (n_get s) (request_of url (headers_Authorization s)) =
    GetResponse rsp ->
  (hard_fails env task url out a s (status_code rsp) <->
     status_code rsp <> 200%Z /\ status_code rsp <> 401%Z /\
     status_code rsp ∉ RETRY_STATUS) /\
  (hard_fails env task url out a s (status_code rsp) ->
     exists s', for_loop (a :: rest) (attempt_body env task url out) after s =
                  (Ok (failed task (status_code rsp) out), s') /\
                n_get s' = S (n_get s) /\ fs s' = fs s) /\
  (status_code rsp = 200%Z -> ~ hard_fails env task url out a s (status_code rsp)).
Proof.
  intros Hrsp.
  destruct (wp_elim _ _ _ (attempt_body_spec env task url out a s))
    as (r & s' & Hrun & Hn & _ & evs & _ & _ & Hcase).
  rewrite Hrsp in Hcase. cbv zeta in Hcase. destruct Hcase as (Hst & Hcase).
  set (c := status_code rsp) in *.
  set (fatal := c <> 200%Z /\ c <> 401%Z /\ c ∉ RETRY_STATUS).
  assert (Hcases :
    (fatal /\ r = Ok (Some (failed task c out)) /\ fs s' = fs s /\
     last_msg s' = MsgHTTP c (snippet_of rsp)) \/
    (~ fatal /\ (r <> Ok (Some (failed task c out)) \/
                 forall snip, last_msg s' <> MsgHTTP c snip))).
  { unfold fatal.
    destruct (c =? 401)%Z eqn:E401.
    { right. apply Z.eqb_eq in E401. split; [tauto|]. left.
      destruct Hcase as (_ & _ & [->|[-> _]]); discriminate. }
    destruct (bool_decide (c ∈ RETRY_STATUS)) eqn:Eretry.
    { right. apply bool_decide_eq_true in Eretry. split; [tauto|]. left.
      destruct Hcase as (-> & _); discriminate. }
    destruct (c =? 200)%Z eqn:E200; cbn [negb] in Hcase.
    { right. apply Z.eqb_eq in E200. split; [tauto|].
      destruct (startswith (content rsp) "%PDF"); cbn [negb] in Hcase.
      - left. destruct Hcase as (-> & _); discriminate.
      - right. destruct Hcase as (_ & _ & _ & ->). discriminate. }
    left. apply Z.eqb_neq in E200, E401. apply bool_decide_eq_false in Eretry.
    destruct Hcase as (-> & Hfs & _ & Hmsg). auto. }
  clear Hcase.
  assert (Hiff : hard_fails env task url out a s c <-> fatal).
  { unfold hard_fails. rewrite Hrun. split.
    - intros (s0 & [= -> <-] & snip & Hmsg).
      destruct Hcases as [(? & _)|(_ & [Hr|Hm])]; [assumption|congruence|].
      exfalso. exact (Hm _ Hmsg).
    - intros Hf. destruct Hcases as [(_ & -> & _ & Hmsg)|(Hnf & _)]; [eauto|tauto]. }
  split_and!; [exact Hiff| |].
  - intros Hf%Hiff. destruct Hcases as [(_ & -> & Hfs & _)|(Hnf & _)]; [|tauto].
    exists s'. cbn [for_loop]. unfold bind at 1. rewrite Hrun. auto.
  - intros H200 Hf%Hiff. unfold fatal in Hf. tauto.
Qed.

Lemma fatal_http_classification_witness :
  hard_fails (env_const grant (response 404 "<error/>")) sample_task
    (IMG_URL "EP" "0884389" "A1") (out_path_for sample_task) 1 (start ∅ None) 404.
Proof.
  apply (fatal_http_classification (env_const grant (response 404 "<error/>"))
           sample_task (IMG_URL "EP" "0884389" "A1") (out_path_for sample_task) 1
           [] (ret (failed sample_task 0 "")) (start ∅ None)
           {| status_code := 404; header_Retry_After := None; content := "<error/>" |}
           eq_refl).
  split_and!; [discriminate..|]. apply (bool_decide_unpack _). vm_compute. exact I.
Defined.

(** Status 206 is a 2xx status, and the attempt ends in a hard failure. *)
Lemma partial_content_is_a_hard_failure :
  is_2xx 206 /\
  hard_fails (env_const grant (response 206 "%PDF-1.4")) sample_task
    (IMG_URL "EP" "0884389" "A1") (out_path_for sample_task) 1 (start ∅ None) 206.
Proof.
  split; [unfold is_2xx; lia|].
  eexists. split; [vm_compute; reflexivity|]. eexists. reflexivity.
Qed.







(** The first token fetch of [download_one] stands before the [try]: when it
    fails, the exception leaves [download_one] without a single image
    request. *)
Lemma download_one_initial_fetch_raises env task s :
  already_downloaded s task = false -> _token s = None ->
  match auth_server env (n_auth s) with
  | AuthNetworkError => True
  | AuthResponse status _ => (400 <= status < 600)%Z
  end ->
  exists e s',
    download_one env task s = (Raise e, s') /\ is_RequestException e = true /\
    trace s' = trace s ++ [EvMakedirs OUT_DIR; EvAuthPost] /\ fs s' = fs s.
Proof.
  intros Hnot Htok Hauth.
  destruct (wp_elim (download_one env task)
    (fun r s' => exists e, r = Raise e /\ is_RequestException e = true /\
       trace s' = trace s ++ [EvMakedirs OUT_DIR; EvAuthPost] /\ fs s' = fs s) s)
    as (r & s' & Hrun & e & -> & He & Htr & Hfs); [|eauto 10].
  unfold download_one. unfold already_downloaded in Hnot.
  repeat wp_prim.
  all: fs_facts; try lia; try congruence.
  all: try (exfalso; by eapply is_Some_None).
  all: try match goal with
       | H : auth_server _ _ = _, H' : match auth_server _ _ with _ => _ end |- _ =>
           rewrite H in H'
       end.
  all: try match goal with
       | H : (400 <=? ?x)%Z && (?x <? 600)%Z = false, H' : (400 <= ?x < 600)%Z |- _ =>
           exfalso; apply andb_false_iff in H as [H|H];
           [apply Z.leb_gt in H|apply Z.ltb_ge in H]; lia
       end.
  all: try (eexists; split_and!;
            [reflexivity|reflexivity|rewrite <- ?app_assoc; reflexivity|reflexivity]).
Qed.

(** The environment of an expiring token: the first fetch succeeds, every
    later fetch meets a 503, and the image endpoint rejects the token. *)
Definition env_token_expires : Env :=
  {| auth_server := fun i => match i with
                             | O => grant
                             | S _ => AuthResponse 503 NotJson
                             end;
     image_server := fun _ _ => response 401 "";
     random_source := fun _ => 1 # 2;
     clock_text := fun _ => "2026-01-01 00:00:00" |}.

(** C1 (the code misses it): a task with no cached token whose first token
    fetch meets HTTP 500, or a connection error, makes [download_one] raise;
    [fut.result()] raises again in [run_bulk], which ends the run with no row
    for the task.  A refresh that fails inside the loop is retried instead:
    there [download_one] returns the "failed" tuple. *)
Theorem initial_token_failure_escapes :
  fst (download_one (env_const (AuthResponse 500 NotJson) (response 200 big_pdf))
         sample_task (start ∅ None)) = Raise (HTTPError 500) /\
  fst (download_one (env_const AuthNetworkError (response 200 big_pdf))
         sample_task (start ∅ None)) = Raise ConnectionError /\
  fst (run_bulk (env_const (AuthResponse 500 NotJson) (response 200 big_pdf))
         [sample_task] CHUNK_SIZE (start ∅ None)) = Raise (HTTPError 500) /\
  log_file (snd (run_bulk (env_const (AuthResponse 500 NotJson) (response 200 big_pdf))
         [sample_task] CHUNK_SIZE (start ∅ None))) = Some [Header] /\
  fst (download_one env_token_expires sample_task (start ∅ None)) =
    Ok (failed sample_task 401 (out_path_for sample_task)) /\
  count is_get (trace (snd (download_one env_token_expires sample_task (start ∅ None))))
    = 7%nat.
Proof.
  split_and!; vm_compute; reflexivity.
Qed.

End FrontPageFacts.

(** ** Facts about the rate limiter *)

Module RateLimiterFacts.
Import RateLimiter.
Local Open Scope Q_scope.

Definition pc_ok (mi : Q) (m : Machine) (p : pc) : Prop :=
  match p with
  | Idle | Entered | Stamped => True
  | HasNow now => now <= clock m
  | Sleeping wake => mi <= wake - last m
  | Slept => mi <= clock m - last m
  end.

Record Inv (mi : Q) (m : Machine) : Prop := {
  inv_paced : paced mi (stamps m);
  inv_last : last m = hd 0 (stamps m);
  inv_lock : forall t, pcs m t <> Idle -> lock m = Some t;
  inv_pc : forall t, pc_ok mi m (pcs m t)
}.

Lemma Qlt_bool_false a b : Qlt_bool a b = false -> b <= a.
Proof.
  unfold Qlt_bool. intros H. apply negb_false_iff in H. now apply Qle_bool_iff.
Qed.

Lemma Inv_init mi t0 : Inv mi (init t0).
Proof. split; simpl; auto; try done. Qed.

Lemma upd_same t p f : upd t p f t = p.
Proof. unfold upd. now rewrite Nat.eqb_refl. Qed.

Lemma upd_other t t' p f : t <> t' -> upd t p f t' = f t'.
Proof. unfold upd. intros H. apply Nat.eqb_neq in H. now rewrite H. Qed.

Lemma others_idle m t t' :
  (forall t, pcs m t <> Idle -> lock m = Some t) ->
  pcs m t <> Idle -> t' <> t -> pcs m t' = Idle.
Proof.
  intros Hk Ht Hne. destruct (pcs m t') eqn:E; [reflexivity|..].
  all: exfalso; apply Hne;
    assert (H1 : lock m = Some t') by (apply Hk; rewrite E; discriminate);
    assert (H2 : lock m = Some t) by (apply Hk; exact Ht); congruence.
Qed.

(** Thread [t], which holds the lock, moves to the program point [p]. *)
Lemma Inv_move mi m t p clock' last' stamps' :
  (forall t, pcs m t <> Idle -> lock m = Some t) ->
  pcs m t <> Idle -> p <> Idle ->
  paced mi stamps' -> last' = hd 0 stamps' ->
  pc_ok mi {| clock := clock'; last := last'; lock := lock m;
              pcs := upd t p (pcs m); stamps := stamps' |} p ->
  Inv mi {| clock := clock'; last := last'; lock := lock m;
            pcs := upd t p (pcs m); stamps := stamps' |}.
Proof.
  intros Hk Ht Hp Hpaced Hlast Hok. split; simpl; auto.
  - intros t' Hne. destruct (Nat.eq_dec t t') as [<-|Hd].
    + apply Hk, Ht.
    + rewrite upd_other in Hne by exact Hd. apply Hk, Hne.
  - intros t'. destruct (Nat.eq_dec t t') as [<-|Hd].
    + rewrite upd_same. exact Hok.
    + rewrite upd_other by exact Hd.
      rewrite (others_idle m t t' Hk Ht) by auto. exact I.
Qed.

Lemma Inv_exec mi a m m' : Inv mi m -> exec mi a m = Some m' -> Inv mi m'.
Proof.
  intros [Hp Hl Hk Hpc] Hex. destruct a as [d|t|t|t|t|t|t]; simpl in Hex.
  - (* time passes *)
    destruct (Qle_bool 0 d) eqn:Hd; [|discriminate]. injection Hex as <-.
    apply Qle_bool_iff in Hd.
    split; simpl; auto. intros t. specialize (Hpc t).
    destruct (pcs m t); simpl in *; auto; lra.
  - (* the lock is free: every thread is outside [wait] *)
    destruct (lock m) eqn:Hlock; [discriminate|].
    destruct (pcs m t) eqn:Ht; try discriminate. injection Hex as <-.
    assert (Hidle : forall t', pcs m t' = Idle).
    { intros t'. destruct (pcs m t') eqn:E; [reflexivity|..].
      all: assert (H : None = Some t') by (apply Hk; rewrite E; discriminate);
        discriminate. }
    split; simpl; auto.
    + intros t' Hne. destruct (Nat.eq_dec t t') as [<-|Hd]; [reflexivity|].
      rewrite upd_other, Hidle in Hne by exact Hd. congruence.
    + intros t'. destruct (Nat.eq_dec t t') as [<-|Hd].
      * rewrite upd_same. exact I.
      * rewrite upd_other, Hidle by exact Hd. exact I.
  - destruct (pcs m t) eqn:Ht; try discriminate. injection Hex as <-.
    apply Inv_move; auto; try (rewrite Ht; discriminate); try discriminate.
    simpl. lra.
  - destruct (pcs m t) eqn:Ht; try discriminate.
    specialize (Hpc t) as Hnow. rewrite Ht in Hnow. simpl in Hnow.
    destruct (Qlt_bool 0 (wait_for mi now (last m))) eqn:Hw; injection Hex as <-.
    + apply Inv_move; auto; try (rewrite Ht; discriminate); try discriminate.
      simpl. unfold wait_for. lra.
    + apply Inv_move; auto; try (rewrite Ht; discriminate); try discriminate.
      simpl. apply Qlt_bool_false in Hw. unfold wait_for in Hw. lra.
  - destruct (pcs m t) eqn:Ht; try discriminate.
    specialize (Hpc t) as Hwake. rewrite Ht in Hwake. simpl in Hwake.
    destruct (Qle_bool wake (clock m)) eqn:Hw; [|discriminate]. injection Hex as <-.
    apply Qle_bool_iff in Hw.
    apply Inv_move; auto; try (rewrite Ht; discriminate); try discriminate.
    simpl. lra.
  - destruct (pcs m t) eqn:Ht; try discriminate. injection Hex as <-.
    specialize (Hpc t) as Hgap. rewrite Ht in Hgap. simpl in Hgap.
    apply Inv_move; auto; try (rewrite Ht; discriminate); try discriminate.
    + simpl. split; [|exact Hp]. rewrite <- Hl. exact Hgap.
    + exact I.
  - destruct (pcs m t) eqn:Ht; try discriminate. injection Hex as <-.
    assert (Hne : pcs m t <> Idle) by (rewrite Ht; discriminate).
    split; simpl; auto.
    + intros t' Hne'. destruct (Nat.eq_dec t t') as [<-|Hd].
      * rewrite upd_same in Hne'. congruence.
      * rewrite upd_other in Hne' by exact Hd.
        rewrite (others_idle m t t' Hk Hne) in Hne' by auto. congruence.
    + intros t'. destruct (Nat.eq_dec t t') as [<-|Hd].
      * rewrite upd_same. exact I.
      * rewrite upd_other by exact Hd.
        rewrite (others_idle m t t' Hk Hne) by auto. exact I.
Qed.

Lemma Inv_run mi schedule : forall m m',
  Inv mi m -> run mi schedule m = Some m' -> Inv mi m'.
Proof.
  induction schedule as [|a rest IH]; simpl; intros m m' HI Hrun.
  - injection Hrun as <-. exact HI.
  - destruct (exec mi a m) as [m1|] eqn:Hex; [|discriminate].
    eapply IH; [|exact Hrun]. eapply Inv_exec; eassumption.
Qed.






(** The configured limiter: [RATE_PER_SEC = 1.0] gives an interval of 1 s. *)
Lemma rate_limiter_min_interval_is_1 : rate_limiter_min_interval == 1.
Proof. reflexivity. Qed.

End RateLimiterFacts.

(** ** Facts about the bulk downloader *)

Module BulkFacts.
Import Py PyFacts Bulk.

Lemma pick_first_none d keys :
  (forall k, k ∈ keys -> usable d k = false) -> pick_first d keys = JNull.
Proof.
  induction keys as [|k rest IH]; simpl; [reflexivity|]. intros H.
  assert (Hk : usable d k = false) by (apply H; left).
  unfold usable in Hk. destruct (dict_get k d) as [v|].
  - apply negb_false_iff in Hk. rewrite Hk. apply IH. intros; apply H; now right.
  - apply IH. intros; apply H; now right.
Qed.

Lemma pick_first_found d pre k post v :
  (forall k', k' ∈ pre -> usable d k' = false) ->
  dict_get k d = Some v -> v <> JNull ->
  pick_first d (pre ++ k :: post) = v.
Proof.
  intros Hpre Hk Hv. induction pre as [|k0 pre IH]; simpl.
  - rewrite Hk. destruct v; try reflexivity. congruence.
  - assert (H0 : usable d k0 = false) by (apply Hpre; left).
    unfold usable in H0. destruct (dict_get k0 d) as [v0|].
    + apply negb_false_iff in H0. rewrite H0. apply IH. intros; apply Hpre; now right.
    + apply IH. intros; apply Hpre; now right.
Qed.

Lemma pick_first_cases d keys :
  (pick_first d keys = JNull /\ forall k, k ∈ keys -> usable d k = false) \/
  (exists pre k post v,
     keys = pre ++ k :: post /\ (forall k', k' ∈ pre -> usable d k' = false) /\
     dict_get k d = Some v /\ v <> JNull /\ pick_first d keys = v).
Proof.
  induction keys as [|k rest IH]; simpl.
  - left. split; [reflexivity|]. intros k Hk. by apply elem_of_nil in Hk.
  - destruct (dict_get k d) as [v|] eqn:Hk.
    + destruct (is_None v) eqn:Hv.
      * destruct IH as [[Hn Hall]|(pre & k1 & post & v1 & -> & Hpre & Hk1 & Hv1 & Hp)].
        -- left. split; [exact Hn|]. intros k' [->|Hin]%elem_of_cons; [|auto].
           unfold usable. now rewrite Hk, Hv.
        -- right. exists (k :: pre), k1, post, v1. split_and!; auto.
           intros k' [->|Hin]%elem_of_cons; [|auto]. unfold usable. now rewrite Hk, Hv.
      * right. exists [], k, rest, v. split_and!; auto.
        -- intros k' Hin. by apply elem_of_nil in Hin.
        -- intros ->. discriminate.
    + destruct IH as [[Hn Hall]|(pre & k1 & post & v1 & -> & Hpre & Hk1 & Hv1 & Hp)].
      * left. split; [exact Hn|]. intros k' [->|Hin]%elem_of_cons; [|auto].
        unfold usable. now rewrite Hk.
      * right. exists (k :: pre), k1, post, v1. split_and!; auto.
        intros k' [->|Hin]%elem_of_cons; [|auto]. unfold usable. now rewrite Hk.
Qed.

Lemma main_nested_cases d keys :
  (main_nested_lookup d keys = (JNull, d) /\
   forall k, k ∈ keys -> nested_usable d k = false) \/
  (exists pre k post inner,
     keys = pre ++ k :: post /\ (forall k', k' ∈ pre -> nested_usable d k' = false) /\
     dict_get k d = Some (JDict inner) /\ find_delivery_id inner <> JNull /\
     main_nested_lookup d keys = (find_delivery_id inner, inner)).
Proof.
  induction keys as [|k rest IH]; simpl.
  - left. split; [reflexivity|]. intros k Hk. by apply elem_of_nil in Hk.
  - assert (Hskip : nested_usable d k = false ->
      (main_nested_lookup d rest = (JNull, d) /\
       forall k0, k0 ∈ k :: rest -> nested_usable d k0 = false) \/
      (exists pre k0 post inner,
         k :: rest = pre ++ k0 :: post /\
         (forall k', k' ∈ pre -> nested_usable d k' = false) /\
         dict_get k0 d = Some (JDict inner) /\ find_delivery_id inner <> JNull /\
         main_nested_lookup d rest = (find_delivery_id inner, inner))).
    { intros Hk.
      destruct IH as [[Hn Hall]|(pre & k1 & post & inner & -> & Hpre & Hk1 & Hv1 & Hp)].
      - left. split; [exact Hn|]. intros k' [->|Hin]%elem_of_cons; auto.
      - right. exists (k :: pre), k1, post, inner. split_and!; auto.
        intros k' [->|Hin]%elem_of_cons; auto. }
    unfold nested_usable in Hskip.
    destruct (dict_get k d) as [[| | | | |inner]|] eqn:Hk; auto.
    destruct (is_None (find_delivery_id inner)) eqn:Hv; auto.
    right. exists [], k, rest, inner. split_and!; auto.
    + intros k' Hin. by apply elem_of_nil in Hin.
    + intros E. rewrite E in Hv. discriminate.
Qed.

(** C8: [find_delivery_id] tries the keys "id", "deliveryId", "delivery_id",
    "deliveryID", "uuid", "key" in this order and yields the first value that
    is present and not [None], or [None] when there is none (it is total).
    When the top level yields [None], [main] tries the dicts under "delivery",
    "meta", "data" in this order, one level deep only: a delivery
    [{"meta": {"id": "X"}}] resolves to "X", and a delivery whose id lies two
    levels down resolves to [None]. *)
Theorem delivery_id_lookup :
  (forall d, find_delivery_id d =
     pick_first d ["id"; "deliveryId"; "delivery_id"; "deliveryID"; "uuid"; "key"]) /\
  (forall d keys,
     (pick_first d keys = JNull /\ forall k, k ∈ keys -> usable d k = false) \/
     (exists pre k post v,
        keys = pre ++ k :: post /\ (forall k', k' ∈ pre -> usable d k' = false) /\
        dict_get k d = Some v /\ v <> JNull /\ pick_first d keys = v)) /\
  (forall d, find_delivery_id d <> JNull ->
     main_delivery_lookup d = (find_delivery_id d, d)) /\
  (forall d, find_delivery_id d = JNull ->
     (main_delivery_lookup d = (JNull, d) /\
      forall k, k ∈ ["delivery"; "meta"; "data"] -> nested_usable d k = false) \/
     (exists pre k post inner,
        ["delivery"; "meta"; "data"] = pre ++ k :: post /\
        (forall k', k' ∈ pre -> nested_usable d k' = false) /\
        dict_get k d = Some (JDict inner) /\ find_delivery_id inner <> JNull /\
        main_delivery_lookup d = (find_delivery_id inner, inner))) /\
  (forall x, x <> JNull ->
     main_delivery_lookup [("meta", JDict [("id", x)])] = (x, [("id", x)])) /\
  main_delivery_lookup [("meta", JDict [("id", JStr "X")])] =
    (JStr "X", [("id", JStr "X")]) /\
  fst (main_delivery_lookup [("meta", JDict [("meta", JDict [("id", JStr "X")])])]) =
    JNull.
Proof.
  split_and!.
  - reflexivity.
  - apply pick_first_cases.
  - intros d Hd. unfold main_delivery_lookup.
    destruct (find_delivery_id d); try reflexivity. congruence.
  - intros d Hd. unfold main_delivery_lookup. rewrite Hd. cbn [is_None].
    apply main_nested_cases.
  - intros x Hx. destruct x; try reflexivity. congruence.
  - reflexivity.
  - reflexivity.
Qed.

Ltac bwp_simpl :=
  cbv beta iota zeta;
  cbn [fs n_head n_stream trace add_event is_Exception is_RequestException] in *.

Ltac bwp_prim :=
  first
  [ wp_step
  | lazymatch goal with
    | |- wp (match ?x with _ => _ end) _ _ => destruct x eqn:?
    | |- wp ?m _ _ =>
      progress unfold mkdir, open_wb, replace, do_fs, emit, time_sleep, tick_head,
        tick_stream, raise_for_status, head_attempt
    end ]; bwp_simpl.

Lemma fs_ops_app evs1 evs2 : fs_ops (evs1 ++ evs2) = fs_ops evs1 ++ fs_ops evs2.
Proof.
  induction evs1 as [|e evs1 IH]; simpl; [reflexivity|].
  destruct e; simpl; rewrite IH; reflexivity.
Qed.

Lemma count_heads_app evs1 evs2 :
  count_heads (evs1 ++ evs2) = (count_heads evs1 + count_heads evs2)%nat.
Proof.
  induction evs1 as [|e evs1 IH]; simpl; [reflexivity|].
  destruct e; simpl; rewrite IH; reflexivity.
Qed.

(** One probe: it never raises, never touches a file, and sends one HEAD. *)
Definition head_attempt_post (env : Env) (url : string) (s : State)
    (r : res (option (option Z))) (s' : State) : Prop :=
  fs s' = fs s /\ n_head s' = S (n_head s) /\ n_stream s' = n_stream s /\
  (exists evs, trace s' = trace s ++ evs /\ count_heads evs = 1%nat /\
               fs_ops evs = []) /\
  r = Ok (if head_fails (head_server env (n_head s) url) then None
          else Some (head_size (head_server env (n_head s) url))).

Lemma head_attempt_spec env url b i s :
  wp (head_attempt env url b i) (head_attempt_post env url s) s.
Proof.
  unfold head_attempt. repeat bwp_prim.
  all: unfold head_attempt_post; bwp_simpl.
  all: split_and!; try reflexivity.
  all: try (eexists; split_and!; [rewrite <- ?app_assoc; reflexivity|reflexivity..]).
  all: repeat match goal with
       | H : ?x = _ |- context [?x] => rewrite H
       end; cbn [head_fails head_size orb].
  all: repeat match goal with
       | H : ?x = _ |- context [?x] => rewrite H
       end; cbn [orb]; try reflexivity.
Qed.

Definition head_post (env : Env) (url : string) (retries : nat) (s : State)
    (r : res (option Z)) (s' : State) : Prop :=
  r = Ok (head_result env url (n_head s) retries) /\ fs s' = fs s /\
  n_stream s' = n_stream s /\
  exists evs, trace s' = trace s ++ evs /\ (count_heads evs <= retries)%nat /\
              fs_ops evs = [].

Lemma head_loop_spec env url b : forall n i s,
  wp (for_loop (seq i n) (head_attempt env url b) (ret None))
     (head_post env url n s) s.
Proof.
  induction n as [|n IH]; intros i s; cbn [seq for_loop].
  - apply wp_ret. unfold head_post. split_and!; try reflexivity.
    exists []. rewrite app_nil_r. split_and!; [reflexivity|simpl; lia|reflexivity].
  - apply wp_bind. eapply wp_mono; [apply head_attempt_spec|].
    intros r s1 (Hfs & Hn & Hstream & (evs & Htr & Hc & Hops) & ->).
    destruct (head_fails (head_server env (n_head s) url)) eqn:Hfail.
    + eapply wp_mono; [apply (IH (S i) s1)|].
      intros r s2 (-> & Hfs2 & Hstream2 & evs2 & Htr2 & Hc2 & Hops2).
      unfold head_post. cbn [head_result]. rewrite Hfail, Hn.
      split_and!; [reflexivity|congruence..|].
      exists (evs ++ evs2). rewrite Htr2, Htr, <- app_assoc, count_heads_app, fs_ops_app.
      rewrite Hops, Hops2. split_and!; [reflexivity|lia|reflexivity].
    + apply wp_ret. unfold head_post. cbn [head_result]. rewrite Hfail.
      split_and!; [reflexivity|congruence..|].
      exists evs. split_and!; [assumption|lia|assumption].
Qed.

Lemma head_content_length_spec env url retries b s :
  wp (head_content_length env url retries b) (head_post env url retries s) s.
Proof.
  unfold head_content_length, range. rewrite Nat.sub_0_r. apply head_loop_spec.
Qed.

(** C6: [is_fully_downloaded] answers [True] exactly for a regular, non-empty
    file whose size equals the [Content-Length] that [head_content_length]
    reports; a probe that fails four times, or whose first usable answer has no
    [Content-Length], gives [None] and hence [False].  The call never raises
    and changes no file. *)
Theorem is_fully_downloaded_iff env path url s :
  exists b s',
    is_fully_downloaded env path url s = (Ok b, s') /\ fs s' = fs s /\
    (b = true <->
       exists data, fs s !! path = Some (File data) /\ (0 < len data)%Z /\
         fst (head_content_length env url 4 (6 # 10) s) = Ok (Some (len data))) /\
    (fst (head_content_length env url 4 (6 # 10) s) = Ok None -> b = false) /\
    fst (head_content_length env url 4 (6 # 10) s) =
      Ok (head_result env url (n_head s) 4) /\
    ((forall i, (i < 4)%nat -> head_fails (head_server env (n_head s + i) url) = true) ->
       b = false) /\
    (forall status, head_server env (n_head s) url = HeadResponse status None ->
       ~ (400 <= status < 600)%Z -> b = false).
Proof.
  destruct (wp_elim _ _ _ (head_content_length_spec env url 4 (6 # 10) s))
    as (rh & sh & Hhead & -> & Hfs & _).
  assert (Hnone : forall b : bool,
            (head_result env url (n_head s) 4 = None -> b = false) ->
            ((forall i, (i < 4)%nat ->
                head_fails (head_server env (n_head s + i) url) = true) -> b = false) /\
            (forall status, head_server env (n_head s) url = HeadResponse status None ->
               ~ (400 <= status < 600)%Z -> b = false)).
  { intros b Hb. split.
    - intros Hall. apply Hb. cbn [head_result].
      rewrite <- (Nat.add_0_r (n_head s)) at 1.
      rewrite (Hall 0%nat) by lia.
      replace (S (n_head s)) with (n_head s + 1)%nat by lia.
      rewrite (Hall 1%nat) by lia.
      replace (S (n_head s + 1)) with (n_head s + 2)%nat by lia.
      rewrite (Hall 2%nat) by lia.
      replace (S (n_head s + 2)) with (n_head s + 3)%nat by lia.
      rewrite (Hall 3%nat) by lia. reflexivity.
    - intros status Hr Hst. apply Hb. cbn [head_result]. rewrite Hr.
      cbn [head_fails head_size].
      replace ((400 <=? status)%Z && (status <? 600)%Z) with false; [reflexivity|].
      symmetry. apply andb_false_iff.
      destruct (Z.leb_spec 400 status); [|auto].
      destruct (Z.ltb_spec status 600); [lia|auto]. }
  set (hr := head_result env url (n_head s) 4) in *.
  assert (Hrun : exists s',
    is_fully_downloaded env path url s =
      (Ok match fs s !! path with
          | Some (File data) =>
              if (len data <=? 0)%Z then false
              else match hr with
                   | Some remote => (len data =? remote)%Z
                   | None => false
                   end
          | _ => false
          end, s') /\ fs s' = fs s).
  { unfold is_fully_downloaded, bind, get, ret. cbv beta iota.
    destruct (fs s !! path) as [[data|]|]; [|eauto..].
    destruct (len data <=? 0)%Z; [eauto|]. rewrite Hhead.
    destruct hr as [remote|]; [|eauto].
    destruct (len data =? remote)%Z; cbn [negb]; eauto. }
  destruct Hrun as (s' & Hrun & Hfs').
  eexists _, s'. split; [exact Hrun|]. split; [exact Hfs'|].
  rewrite Hhead. cbn [fst].
  split; [|split; [|split; [reflexivity|apply Hnone]]].
  - destruct (fs s !! path) as [[data|]|].
    + destruct (Z.leb_spec (len data) 0).
      * split; [discriminate|]. intros (d & [= <-] & Hpos & _). lia.
      * destruct hr as [remote|].
        -- split.
           ++ intros Heq%Z.eqb_eq. exists data. split_and!; [reflexivity|lia|congruence].
           ++ intros (d & [= <-] & _ & [= <-]). apply Z.eqb_refl.
        -- split; [discriminate|]. intros (d & _ & _ & [=]).
    + split; [discriminate|]. intros (d & [=] & _).
    + split; [discriminate|]. intros (d & [=] & _).
  - intros [= ->]. destruct (fs s !! path) as [[data|]|]; try reflexivity.
    destruct (len data <=? 0)%Z; reflexivity.
  - intros ->. destruct (fs s !! path) as [[data|]|]; try reflexivity.
    destruct (len data <=? 0)%Z; reflexivity.
Qed.

(** *** Streaming to the [.part] sibling *)

Lemma length_append (a b : string) :
  String.length (a +:+ b) = (String.length a + String.length b)%nat.
Proof.
  induction a as [|c a IH]; [reflexivity|].
  change (S (String.length (a +:+ b)) = S (String.length a + String.length b)).
  now rewrite IH.
Qed.

Lemma part_path_ne out : part_path out <> out.
Proof.
  unfold part_path. intros H.
  apply (f_equal String.length) in H. rewrite length_append in H.
  simpl in H. lia.
Qed.

(** An operation of the streaming phase: it acts on [tmp] or makes a
    directory. *)
Definition staging_op (tmp : string) (op : fs_op) : Prop :=
  match op with
  | OpMkdir _ => True
  | OpOpenWb p | OpAppend p _ => p = tmp
  | OpReplace _ _ | OpUnlink _ => False
  end.

Lemma apply_staging_visible tmp out op f :
  staging_op tmp op -> tmp <> out ->
  visible_file (apply_op op f) out = visible_file f out.
Proof.
  unfold visible_file. destruct op as [d|p|p b|src dst|p]; simpl; intros Hop Hne;
    try contradiction.
  - destruct (f !! d) eqn:Hd; [reflexivity|].
    destruct (decide (d = out)) as [->|Hdo].
    + rewrite lookup_insert_eq, Hd. reflexivity.
    + rewrite lookup_insert_ne by exact Hdo. reflexivity.
  - subst p. rewrite lookup_insert_ne by exact Hne. reflexivity.
  - subst p. destruct (f !! tmp) as [[old|]|]; try reflexivity.
    rewrite lookup_insert_ne by exact Hne. reflexivity.
Qed.

Lemma replay_staging_visible tmp out ops : forall f,
  Forall (staging_op tmp) ops -> tmp <> out ->
  visible_file (replay ops f) out = visible_file f out.
Proof.
  induction ops as [|op ops IH]; intros f Hall Hne; [reflexivity|].
  inversion Hall as [|? ? Hop Hrest]; subst. unfold replay in *. cbn [foldl].
  rewrite IH by assumption. apply apply_staging_visible with tmp; assumption.
Qed.

Lemma replay_app ops1 ops2 f : replay (ops1 ++ ops2) f = replay ops2 (replay ops1 f).
Proof. unfold replay. apply foldl_app. Qed.

Lemma append_assoc (a b c : string) : (a +:+ b) +:+ c = a +:+ (b +:+ c).
Proof.
  induction a as [|x a IH]; [reflexivity|].
  change (String x ((a +:+ b) +:+ c) = String x (a +:+ (b +:+ c))).
  now rewrite IH.
Qed.

Lemma append_empty_r (a : string) : a +:+ "" = a.
Proof.
  induction a as [|x a IH]; [reflexivity|].
  change (String x (a +:+ "") = String x a). now rewrite IH.
Qed.

Lemma stream_data_cons b rest : stream_data (b :: rest) = b +:+ stream_data rest.
Proof.
  unfold stream_data. destruct rest as [|b' rest]; cbn [String.concat].
  - now rewrite append_empty_r.
  - reflexivity.
Qed.

Lemma len_append a b : len (a +:+ b) = (len a + len b)%Z.
Proof. unfold len. rewrite length_append. lia. Qed.

Definition chunks_post (tmp : string) (chunks : list string) (written : Z)
    (old : string) (s : State) (r : res Z) (s' : State) : Prop :=
  r = Ok (written + len (stream_data chunks))%Z /\
  fs s' !! tmp = Some (File (old +:+ stream_data chunks)) /\
  n_stream s' = n_stream s /\
  exists evs, trace s' = trace s ++ evs /\ fs s' = replay (fs_ops evs) (fs s) /\
              Forall (staging_op tmp) (fs_ops evs).

Lemma write_chunks_spec tmp chunks : forall written old s,
  fs s !! tmp = Some (File old) ->
  wp (write_chunks tmp chunks written) (chunks_post tmp chunks written old s) s.
Proof.
  induction chunks as [|b rest IH]; intros written old s Hold; cbn [write_chunks].
  - apply wp_ret. unfold chunks_post. change (stream_data []) with "".
    rewrite append_empty_r. change (len "") with 0%Z. rewrite Z.add_0_r.
    split_and!; [reflexivity|exact Hold|reflexivity|].
    exists []. rewrite app_nil_r. split_and!; [reflexivity|reflexivity|constructor].
  - destruct (String.eqb_spec b "") as [->|Hb].
    + eapply wp_mono; [apply (IH written old s Hold)|].
      intros r s' (-> & Hf & Hn & evs & Htr & Hfs & Hall).
      unfold chunks_post. rewrite stream_data_cons. cbn [append].
      split_and!; [reflexivity|exact Hf|exact Hn|eauto].
    + repeat bwp_prim.
      eapply wp_mono; [apply (IH (written + len b)%Z (old +:+ b))|].
      * cbn [fs apply_op]. rewrite Hold. apply lookup_insert_eq.
      * intros r s' (-> & Hf & Hn & evs & Htr & Hfs & Hall). bwp_simpl.
        unfold chunks_post. rewrite stream_data_cons, len_append.
        split_and!; [f_equal; lia|rewrite Hf, append_assoc; reflexivity|exact Hn|].
        exists (EvFs (OpAppend tmp b) :: evs).
        split_and!.
        -- rewrite Htr, <- app_assoc. reflexivity.
        -- rewrite Hfs. reflexivity.
        -- constructor; [reflexivity|exact Hall].
Qed.

Definition stream_post (env : Env) (url out : string) (s : State)
    (r : res Z) (s' : State) : Prop :=
  exists evs, trace s' = trace s ++ evs /\ fs s' = replay (fs_ops evs) (fs s) /\
    match r with
    | Ok written =>
        exists status chunks staged,
          stream_server env (n_stream s) url = StreamResponse status chunks false /\
          fs_ops evs = staged ++ [OpReplace (part_path out) out] /\
          Forall (staging_op (part_path out)) staged /\
          written = len (stream_data chunks) /\
          fs s' !! out = Some (File (stream_data chunks)) /\
          fs s' !! part_path out = None
    | Raise e => Forall (staging_op (part_path out)) (fs_ops evs)
    end.

Lemma download_stream_spec env url out s :
  wp (download_stream env url out) (stream_post env url out s) s.
Proof.
  unfold download_stream.
  repeat bwp_prim.
  all: try (eapply wp_mono; [apply (write_chunks_spec _ _ 0%Z ""); apply lookup_insert_eq|];
            intros r s1 (-> & Hf & Hn & evs & Htr & Hfs & Hall); bwp_simpl;
            repeat bwp_prim).
  all: unfold stream_post; bwp_simpl.
  all: eexists; split;
    [first [rewrite ?Htr; rewrite <- ?app_assoc; reflexivity
           |symmetry; apply app_nil_r]|].
  all: rewrite ?fs_ops_app; cbn [fs_ops app].
  all: split; [rewrite ?Hfs; unfold replay; cbn [foldl]; rewrite ?foldl_app; reflexivity|].
  all: try (repeat (constructor; [done|]); first [constructor|assumption]).
  all: eexists status, chunks, (OpMkdir (parent out) :: OpOpenWb (part_path out) :: fs_ops evs).
  all: cbn [apply_op]; rewrite Hf; cbn [append].
  all: split_and!; [assumption|reflexivity| |reflexivity|apply lookup_insert_eq|].
  all: try (repeat (constructor; [done|]); assumption).
  all: rewrite lookup_insert_ne
    by (intros E; symmetry in E; exact (part_path_ne _ E)); apply lookup_delete_eq.
Qed.

Lemma staging_not_replace tmp ops src dst :
  Forall (staging_op tmp) ops -> OpReplace src dst ∉ ops.
Proof.
  intros Hall Hin. rewrite Forall_forall in Hall. exact (Hall _ Hin).
Qed.



(** A stream of three chunks that breaks after the second leaves the partial
    bytes in the [.part] file and nothing at the final path. *)
Example broken_stream_leaves_no_file :
  let env := {| head_server := fun _ _ => HeadNetworkError;
                stream_server := fun _ _ => StreamResponse 200 ["PK"; "data"] true |} in
  let s' := snd (download_stream env "u" "tmp_bdds/a.zip" (start ∅)) in
  fst (download_stream env "u" "tmp_bdds/a.zip" (start ∅)) = Raise ConnectionError /\
  fs s' !! "tmp_bdds/a.zip" = None /\
  fs s' !! "tmp_bdds/a.zip.part" = Some (File "PKdata").
Proof. split_and!; vm_compute; reflexivity. Qed.

Example complete_stream_renames :
  let env := {| head_server := fun _ _ => HeadNetworkError;
                stream_server := fun _ _ => StreamResponse 200 ["PK"; ""; "data"] false |} in
  let s' := snd (download_stream env "u" "tmp_bdds/a.zip" (start ∅)) in
  fst (download_stream env "u" "tmp_bdds/a.zip" (start ∅)) = Ok 6%Z /\
  fs s' !! "tmp_bdds/a.zip" = Some (File "PKdata") /\
  fs s' !! "tmp_bdds/a.zip.part" = None /\
  fs_ops (trace s') =
    [OpMkdir "tmp_bdds"; OpOpenWb "tmp_bdds/a.zip.part";
     OpAppend "tmp_bdds/a.zip.part" "PK"; OpAppend "tmp_bdds/a.zip.part" "data";
     OpReplace "tmp_bdds/a.zip.part" "tmp_bdds/a.zip"].
Proof. split_and!; vm_compute; reflexivity. Qed.

End BulkFacts.

(** ** More facts about the front-page downloader *)

Module TokenFacts.
Import Py PyFacts FrontPage FrontPageFacts.

Lemma get_token_cached_hit env s t :
  _token s = Some t -> get_token_cached env s = (Ok t, s).
Proof. intros H. unfold get_token_cached, bind, get. rewrite H. reflexivity. Qed.

(** X1: [get_token_cached] asks the token endpoint at most once and only
    while no token is cached.  With a token cached it returns that token and
    changes nothing; when it returns a token, that token is cached and a
    second call returns it again without any request; when it raises, one
    request was sent and the cache is still empty. *)
Theorem get_token_cached_caches env s :
  exists r s' evs,
    get_token_cached env s = (r, s') /\ trace s' = trace s ++ evs /\
    fs s' = fs s /\ (count is_auth evs <= 1)%nat /\ count is_get evs = 0%nat /\
    (forall t, _token s = Some t -> r = Ok t /\ s' = s) /\
    match r with
    | Ok t => _token s' = Some t /\ get_token_cached env s' = (Ok t, s')
    | Raise e => _token s = None /\ _token s' = None /\ count is_auth evs = 1%nat
    end.
Proof.
  destruct (wp_elim (get_token_cached env)
    (fun r s' => exists evs, trace s' = trace s ++ evs /\
       fs s' = fs s /\ (count is_auth evs <= 1)%nat /\ count is_get evs = 0%nat /\
       (forall t, _token s = Some t -> r = Ok t /\ s' = s) /\
       match r with
       | Ok t => _token s' = Some t /\ get_token_cached env s' = (Ok t, s')
       | Raise e => _token s = None /\ _token s' = None /\ count is_auth evs = 1%nat
       end) s) as (r & s' & Hrun & evs & H); [|eauto 10].
  unfold get_token_cached at 1. repeat wp_prim.
  all: try (exists [EvAuthPost]; split_and!;
            [reflexivity|reflexivity|cbn; lia|reflexivity|congruence|..];
            first [assumption | reflexivity
                  | apply get_token_cached_hit; reflexivity]).
  exists []. rewrite app_nil_r. split_and!; try reflexivity; [cbn; lia| |assumption|].
  - intros t [= <-]. auto.
  - apply get_token_cached_hit. assumption.
Qed.

(** X2: [refresh_token] always sends exactly one token request, cached
    token or not.  When it succeeds the answer's token replaces the cached one
    and is what [get_token_cached] returns next, without a request; when it
    raises, the token cached before stays in place. *)
Theorem refresh_token_replaces env s :
  exists r s',
    refresh_token env s = (r, s') /\ trace s' = trace s ++ [EvAuthPost] /\
    n_auth s' = S (n_auth s) /\ fs s' = fs s /\
    match r with
    | Ok _ =>
        exists st t, auth_server env (n_auth s) = AuthResponse st (JsonToken t) /\
          _token s' = Some t /\ get_token_cached env s' = (Ok t, s')
    | Raise e => _token s' = _token s
    end.
Proof.
  destruct (wp_elim (refresh_token env)
    (fun r s' => trace s' = trace s ++ [EvAuthPost] /\
       n_auth s' = S (n_auth s) /\ fs s' = fs s /\
       match r with
       | Ok _ =>
           exists st t, auth_server env (n_auth s) = AuthResponse st (JsonToken t) /\
             _token s' = Some t /\ get_token_cached env s' = (Ok t, s')
       | Raise e => _token s' = _token s
       end) s) as (r & s' & Hrun & H); [|eauto 10].
  unfold refresh_token. repeat wp_prim.
  all: split_and!; try reflexivity.
  eexists _, _. split_and!; reflexivity.
Qed.

End TokenFacts.

(** ** The dispatcher: [chunked] and [run_bulk] *)

Module DispatcherFacts.
Import Py PyFacts FrontPage FrontPageFacts.

Section Chunks.
Context {A : Type}.
Variable size : nat.
Hypothesis size_pos : (0 < size)%nat.

Lemma chunked_aux_concat : forall fuel (it : list A),
  (length it <= fuel)%nat -> concat (chunked_aux fuel it size) = it.
Proof using size_pos.
  induction fuel as [|fuel IH]; intros it Hlen.
  - destruct it; [reflexivity|simpl in Hlen; lia].
  - destruct it as [|x it]; [reflexivity|].
    cbn [chunked_aux concat]. rewrite IH.
    + apply take_drop.
    + rewrite length_drop. simpl in *. lia.
Qed.

Lemma chunked_aux_lookup : forall fuel (it : list A) i c,
  (length it <= fuel)%nat -> chunked_aux fuel it size !! i = Some c ->
  c = take size (drop (i * size) it) /\ (i * size < length it)%nat.
Proof using size_pos.
  induction fuel as [|fuel IH]; intros it i c Hlen Hc.
  - destruct it; discriminate.
  - destruct it as [|x it]; [discriminate|].
    cbn [chunked_aux] in Hc. destruct i as [|i].
    + injection Hc as <-. split; [reflexivity|simpl; lia].
    + cbn [lookup list_lookup] in Hc.
      apply IH in Hc as [-> Hlt]; [|rewrite length_drop; simpl in *; lia].
      rewrite drop_drop, length_drop in *. split; [f_equal; f_equal; lia|lia].
Qed.

Lemma chunked_aux_length : forall fuel (it : list A),
  (length it <= fuel)%nat ->
  (length it <= length (chunked_aux fuel it size) * size < length it + size)%nat.
Proof using size_pos.
  induction fuel as [|fuel IH]; intros it Hlen.
  - destruct it; simpl in *; lia.
  - destruct it as [|x it]; [simpl; lia|].
    cbn [chunked_aux].
    change (length (take size (x :: it) :: chunked_aux fuel (drop size (x :: it)) size))
      with (S (length (chunked_aux fuel (drop size (x :: it)) size))).
    specialize (IH (drop size (x :: it))).
    rewrite length_drop in IH.
    set (n := length (chunked_aux fuel (drop size (x :: it)) size)) in *.
    set (k := length (x :: it)) in *.
    assert (Hk : (0 < k <= S fuel)%nat) by (subst k; simpl in *; lia).
    clearbody n k. specialize (IH ltac:(lia)). rewrite Nat.mul_succ_l.
    destruct (le_lt_dec size k) as [Hge|Hlt]; [lia|].
    assert (n = 0)%nat as -> by (destruct n; [reflexivity|nia]). lia.
Qed.

End Chunks.

(** X3: for a positive [size], [chunked(it, size)] cuts [it] into
    consecutive slices: chunk [i] is [it[i*size : i*size + size]], it is not
    empty and no longer than [size]; the chunks put together give [it] back,
    and there are [ceil(len(it) / size)] of them (none for the empty list). *)
Theorem chunked_partitions {A} (it : list A) (size : nat) :
  (0 < size)%nat ->
  concat (chunked it size) = it /\
  (forall i c, chunked it size !! i = Some c ->
     c = take size (drop (i * size) it) /\ (0 < length c <= size)%nat) /\
  (length it <= length (chunked it size) * size < length it + size)%nat /\
  (chunked it size = [] <-> it = []).
Proof.
  intros Hs. unfold chunked. split; [|split; [|split]].
  - apply chunked_aux_concat; [exact Hs|lia].
  - intros i c Hc. apply chunked_aux_lookup in Hc as [-> Hlt]; [|exact Hs|lia].
    split; [reflexivity|]. rewrite length_take, length_drop. lia.
  - apply chunked_aux_length; [exact Hs|lia].
  - pose proof (chunked_aux_length size Hs (length it) it (Nat.le_refl _)) as Hl.
    split.
    + intros E. rewrite E in Hl. simpl in Hl. destruct it; [reflexivity|simpl in Hl; lia].
    + intros ->. reflexivity.
Qed.

Lemma chunked_partitions_witness :
  concat (chunked [1; 2; 3; 4; 5]%nat 2) = [1; 2; 3; 4; 5]%nat /\
  (forall i c, chunked [1; 2; 3; 4; 5]%nat 2 !! i = Some c ->
     c = take 2 (drop (i * 2) [1; 2; 3; 4; 5]%nat) /\ (0 < length c <= 2)%nat) /\
  (length [1; 2; 3; 4; 5]%nat <= length (chunked [1; 2; 3; 4; 5]%nat 2) * 2
     < length [1; 2; 3; 4; 5]%nat + 2)%nat /\
  (chunked [1; 2; 3; 4; 5]%nat 2 = [] <-> [1; 2; 3; 4; 5]%nat = []).
Proof.
  apply (chunked_partitions [1; 2; 3; 4; 5]%nat 2). lia.
Defined.





(** The dispatcher over any property [J] of the files and the trace that the
    calls of [download_one] keep, with [P] what a call returns for its task. *)
Section Dispatch.
Variable env : Env.
Variable J : State -> Prop.
Variable T : DownloadTask -> Prop.
Variable P : DownloadTask -> Result -> Prop.
Variable may_raise : Prop.

Hypothesis J_quiet : forall s s',
  fs s' = fs s ->
  trace s' = trace s \/ trace s' = trace s ++ [EvMakedirs OUT_DIR] ->
  J s -> J s'.

Hypothesis download_one_J : forall t s, T t -> J s ->
  wp (download_one env t)
     (fun r s' => J s' /\ log_file s' = log_file s /\
        match r with Ok res => P t res | Raise _ => may_raise end) s.











End Dispatch.














(** The token endpoint refuses the first request with 503 and grants a
    token from then on; the image endpoint sends a small PDF. *)
Definition env_late_token : Env :=
  {| auth_server := fun i => match i with
                             | O => AuthResponse 503 NotJson
                             | S _ => grant
                             end;
     image_server := fun _ _ => response 200 tiny_pdf;
     random_source := fun _ => 1 # 2;
     clock_text := fun _ => "2026-01-01 00:00:00" |}.

Definition other_task : DownloadTask :=
  {| pub_number := "0995796"; kind := "A2"; country := COUNTRY |}.


(** In that run the file of the second task is on disk and the log holds
    the header only. *)
Example aborted_run_leaves_unlogged_file :
  let s' := snd (run_bulk env_late_token [sample_task; other_task] CHUNK_SIZE
                   (start ∅ None)) in
  fs s' !! out_path_for other_task = Some tiny_pdf /\
  fs s' !! out_path_for sample_task = None /\
  log_file s' = Some [Header].
Proof. split_and!; vm_compute; reflexivity. Qed.

End DispatcherFacts.

(** ** The attempt loop of [download_one] *)

Module AttemptFacts.
Import Py PyFacts FrontPage FrontPageFacts DispatcherFacts.
Local Open Scope Q_scope.

(** A step that rewrites a scrutinee with a known equation before it
    splits cases. *)
Ltac wp_known :=
  first
  [ wp_step
  | lazymatch goal with
    | |- wp (match ?x with _ => _ end) _ _ =>
        first [ match goal with H : x = _ |- _ => rewrite H end
              | destruct x eqn:? ]
    | |- wp (if ?x then _ else _) _ _ =>
        first [ match goal with H : x = _ |- _ => rewrite H end
              | destruct x eqn:? ]
    | |- wp ?m _ _ =>
      progress unfold rate_limiter_wait, time_sleep, random_random, os_makedirs,
      os_path_exists, os_path_getsize, write_file, _get_token_raw, get_token_cached,
      refresh_token, init_log, append_log, session_get, backoff, raise_for_status,
      emit, set_fs, set_token, set_log_file, set_headers_Authorization, set_last_msg,
      set_http_status, tick_auth, tick_get, tick_random, tick_clock
    end ]; wp_simpl.

(** The state in which [download_one] enters its loop when the token [tok]
    is cached: the directory made, the headers and the locals set. *)
Definition loop_entry (tok : string) (s : State) : State :=
  {| fs := fs s; _token := _token s; log_file := log_file s;
     headers_Authorization := "Bearer " +:+ tok;
     last_msg := MsgEmpty; http_status := 0;
     n_auth := n_auth s; n_get := n_get s;
     n_random := n_random s; n_clock := n_clock s;
     trace := trace s ++ [EvMakedirs OUT_DIR] |}.

Lemma wp_self {S A} (m : M S A) s : wp m (fun r s' => (r, s') = m s) s.
Proof. unfold wp. destruct (m s); reflexivity. Qed.

Lemma wp_pair {S A} (m : M S A) s (x : res A * S) :
  wp m (fun r s' => (r, s') = x) s -> m s = x.
Proof. unfold wp. destruct (m s); auto. Qed.

Lemma download_one_with_token env task s tok :
  already_downloaded s task = false -> _token s = Some tok ->
  download_one env task s =
    for_loop (range 1 8)
      (attempt_body env task (IMG_URL (country task) (pub_number task) (kind task))
         (out_path_for task))
      (let* s1 := get in ret (failed task (http_status s1) (out_path_for task)))
      (loop_entry tok s).
Proof.
  intros Hnot Htok. unfold already_downloaded in Hnot.
  apply wp_pair. unfold download_one.
  repeat wp_known.
  all: fs_facts; try lia.
  all: try (exfalso; by eapply is_Some_None).
  all: try (exfalso; eauto; fail).
  all: apply wp_self.
Qed.

(** X7: a 401 is answered by one token refresh and an immediate second
    request that carries the new token.  With the token [tok] cached, a first
    answer 401, a token endpoint that grants [tok'], and a second answer 200
    with a PDF body, [download_one] returns "downloaded" after exactly two
    image requests and one token request, with no sleep in between; the body
    is written to the output path and [tok'] is cached. *)
Theorem download_one_recovers_from_401 env task s tok tok' st r1 r2 :
  already_downloaded s task = false -> _token s = Some tok ->
  image_server env (n_get s)
    (request_of (IMG_URL (country task) (pub_number task) (kind task))
       ("Bearer " +:+ tok)) = GetResponse r1 ->
  status_code r1 = 401%Z ->
  auth_server env (n_auth s) = AuthResponse st (JsonToken tok') ->
  ((400 <=? st)%Z && (st <? 600)%Z) = false ->
  image_server env (S (n_get s))
    (request_of (IMG_URL (country task) (pub_number task) (kind task))
       ("Bearer " +:+ tok')) = GetResponse r2 ->
  status_code r2 = 200%Z -> startswith (content r2) "%PDF" = true ->
  exists s',
    download_one env task s =
      (Ok (downloaded task 200 (out_path_for task) (content r2)), s') /\
    trace s' = trace s ++
      [EvMakedirs OUT_DIR; EvRateWait;
       EvGet (request_of (IMG_URL (country task) (pub_number task) (kind task))
                ("Bearer " +:+ tok));
       EvAuthPost; EvRateWait;
       EvGet (request_of (IMG_URL (country task) (pub_number task) (kind task))
                ("Bearer " +:+ tok'));
       EvWriteFile (out_path_for task) (content r2)] /\
    _token s' = Some tok' /\
    fs s' = <[out_path_for task := content r2]> (fs s).
Proof.
  intros Hnot Htok Hr1 H401 Hauth Hst Hr2 H200 Hpdf.
  rewrite (download_one_with_token env task s tok Hnot Htok).
  assert (E401 : (status_code r1 =? 401)%Z = true) by (rewrite H401; reflexivity).
  assert (E401' : (status_code r2 =? 401)%Z = false) by (rewrite H200; reflexivity).
  assert (Eretry : bool_decide (status_code r2 ∈ RETRY_STATUS) = false)
    by (rewrite H200; reflexivity).
  assert (E200 : negb (status_code r2 =? 200)%Z = false) by (rewrite H200; reflexivity).
  assert (Epdf : negb (startswith (content r2) "%PDF") = false)
    by (rewrite Hpdf; reflexivity).
  match goal with
  | |- exists s', ?m ?s0 = _ /\ _ =>
      destruct (wp_elim m
        (fun r s' =>
           r = Ok (downloaded task 200 (out_path_for task) (content r2)) /\
           trace s' = trace s ++
             [EvMakedirs OUT_DIR; EvRateWait;
              EvGet (request_of (IMG_URL (country task) (pub_number task) (kind task))
                       ("Bearer " +:+ tok));
              EvAuthPost; EvRateWait;
              EvGet (request_of (IMG_URL (country task) (pub_number task) (kind task))
                       ("Bearer " +:+ tok'));
              EvWriteFile (out_path_for task) (content r2)] /\
           _token s' = Some tok' /\
           fs s' = <[out_path_for task := content r2]> (fs s)) s0)
        as (r & s' & Hrun & -> & H)
  end; [|eauto].
  unfold loop_entry. change (range 1 8) with (1 :: 2 :: [3; 4; 5; 6; 7])%nat.
  generalize [3; 4; 5; 6; 7]%nat; intros later.
  cbn [for_loop]. unfold attempt_body.
  repeat wp_known.
  rewrite H200.
  split_and!; try reflexivity.
  rewrite <- !app_assoc. reflexivity.
Qed.

(** The image endpoint answers 401 once and then sends a small PDF; the
    token endpoint grants "token-2". *)
Definition env_expired_once : Env :=
  {| auth_server := fun _ => AuthResponse 200 (JsonToken "token-2");
     image_server := fun i _ => match i with
                                | O => response 401 ""
                                | S _ => response 200 tiny_pdf
                                end;
     random_source := fun _ => 1 # 2;
     clock_text := fun _ => "2026-01-01 00:00:00" |}.

(** A fresh process in which the token [tok] is already cached. *)
Definition start_with_token (tok : string) : State :=
  snd (set_token (Some tok) (start ∅ None)).

Lemma download_one_recovers_from_401_witness :
  exists s',
    download_one env_expired_once sample_task (start_with_token "token-1") =
      (Ok (downloaded sample_task 200 (out_path_for sample_task) tiny_pdf), s') /\
    trace s' = trace (start_with_token "token-1") ++
      [EvMakedirs OUT_DIR; EvRateWait;
       EvGet (request_of (IMG_URL "EP" "0884389" "A1") ("Bearer " +:+ "token-1"));
       EvAuthPost; EvRateWait;
       EvGet (request_of (IMG_URL "EP" "0884389" "A1") ("Bearer " +:+ "token-2"));
       EvWriteFile (out_path_for sample_task) tiny_pdf] /\
    _token s' = Some "token-2" /\
    fs s' = <[out_path_for sample_task := tiny_pdf]> (fs (start_with_token "token-1")).
Proof.
  apply (download_one_recovers_from_401 env_expired_once sample_task
           (start_with_token "token-1") "token-1" "token-2" 200
           {| status_code := 401; header_Retry_After := None; content := "" |}
           {| status_code := 200; header_Retry_After := None; content := tiny_pdf |});
    reflexivity.
Defined.

(** The seconds [time.sleep] was called with, in order. *)
Fixpoint sleeps (evs : list event) : list Q :=
  match evs with
  | [] => []
  | EvSleep d :: rest => d :: sleeps rest
  | _ :: rest => sleeps rest
  end.

Lemma sleeps_app evs1 evs2 : sleeps (evs1 ++ evs2) = sleeps evs1 ++ sleeps evs2.
Proof.
  induction evs1 as [|e evs1 IH]; [reflexivity|].
  destruct e; cbn [app sleeps]; rewrite IH; reflexivity.
Qed.

(** The computed back-off of attempt [a] when [random.random()] gives its
    [i]-th value: [min(60, 2 ** (a - 1) + random.random())]. *)
Definition computed_backoff (env : Env) (a i : nat) : Q :=
  Qmin 60 (inject_Z (2 ^ (Z.of_nat a - 1)) + random_source env i).



Lemma attempt_network_error env task url out a s :
  image_server env (n_get s) (request_of url (headers_Authorization s)) =
    GetNetworkError ->
  wp (attempt_body env task url out a)
     (fun r s' =>
        r = Ok None /\ fs s' = fs s /\ http_status s' = http_status s /\
        headers_Authorization s' = headers_Authorization s /\
        n_random s' = S (n_random s) /\
        trace s' = trace s ++
          [EvRateWait; EvGet (request_of url (headers_Authorization s));
           EvSleep (computed_backoff env a (n_random s))]) s.
Proof.
  intros Hnet. unfold attempt_body. repeat wp_known.
  split_and!; try reflexivity. rewrite <- !app_assoc. reflexivity.
Qed.

Lemma last_sleep_is_a_minute env i :
  0 <= random_source env i -> computed_backoff env 7 i == 60.
Proof.
  intros Hr. unfold computed_backoff. apply Q.min_l.
  change (inject_Z (2 ^ (Z.of_nat 7 - 1))) with (inject_Z 64).
  assert (H : inject_Z 64 == 64) by reflexivity. lra.
Qed.

(** X9: when every image request meets a connection error, [download_one]
    makes exactly 7 requests and returns the "failed" tuple with HTTP status
    0, touching no file and asking for no token.  After each failure,
    the seventh included, it sleeps [min(60, 2 ** (attempt - 1) +
    random.random())] seconds; the last sleep, a full minute when
    [random.random()] is not negative, stands between the seventh failure
    and the return. *)
Theorem download_one_gives_up_on_network_errors env task s tok :
  already_downloaded s task = false -> _token s = Some tok ->
  (forall i req, image_server env i req = GetNetworkError) ->
  exists s' evs,
    download_one env task s = (Ok (failed task 0 (out_path_for task)), s') /\
    trace s' = trace s ++ evs /\ fs s' = fs s /\
    count is_get evs = 7%nat /\ count is_auth evs = 0%nat /\
    sleeps evs =
      map (fun a => computed_backoff env a (n_random s + a - 1)) (seq 1 7) /\
    last evs = Some (EvSleep (computed_backoff env 7 (n_random s + 6))) /\
    ((forall i, 0 <= random_source env i) ->
       computed_backoff env 7 (n_random s + 6) == 60).
Proof.
  intros Hnot Htok Hnet.
  rewrite (download_one_with_token env task s tok Hnot Htok).
  set (delay := fun a => computed_backoff env a (n_random s + a - 1)).
  match goal with
  | |- exists s' evs, ?m ?s0 = _ /\ _ =>
      destruct (wp_elim m
        (fun r s' =>
           r = Ok (failed task 0 (out_path_for task)) /\ fs s' = fs s /\
           exists evs, trace s' = trace s0 ++ evs /\
             count is_get evs = 7%nat /\ count is_auth evs = 0%nat /\
             sleeps evs = map delay (seq 1 7) /\
             last evs = Some (EvSleep (delay 7%nat))) s0)
        as (r & s' & Hrun & -> & Hfs & evs & Htr & Hg & Ha & Hsl & Hlast)
  end.
  - apply (wp_for_loop _ _ _
      (fun i s1 => fs s1 = fs s /\ http_status s1 = 0%Z /\
         n_random s1 = (n_random s + i)%nat /\
         exists evs, trace s1 = trace (loop_entry tok s) ++ evs /\
           count is_get evs = i /\ count is_auth evs = 0%nat /\
           sleeps evs = map delay (seq 1 i) /\
           ((0 < i)%nat -> last evs = Some (EvSleep (delay i))))).
    + intros i x s1 Hx (Hfs & Hst & Hn & evs & Htr & Hg & Ha & Hsl & Hlast).
      unfold range in Hx. apply lookup_seq in Hx as [-> Hi].
      eapply wp_mono; [apply attempt_network_error, Hnet|].
      intros r s' (-> & Hfs' & Hst' & _ & Hn' & Htr').
      split_and!; [congruence|congruence|lia|].
      eexists (evs ++ _). rewrite Htr', Htr, <- app_assoc.
      split; [reflexivity|].
      rewrite !count_app, sleeps_app, Hg, Ha, Hsl, seq_S, map_app, last_app.
      cbn [count is_get is_auth sleeps last map app].
      unfold delay at 2 3. rewrite Hn.
      replace (n_random s + (1 + i) - 1)%nat with (n_random s + i)%nat by lia.
      split_and!; [lia|reflexivity|reflexivity|].
      intros _. unfold delay. do 2 f_equal. f_equal; lia.
    + intros s1 (Hfs & Hst & Hn & evs & Htr & Hg & Ha & Hsl & Hlast).
      change (length (range 1 8)) with 7%nat in *.
      repeat wp_prim. rewrite Hst.
      split_and!; [reflexivity|exact Hfs|]. exists evs.
      split_and!; [exact Htr|exact Hg|exact Ha|exact Hsl|apply Hlast; lia].
    + split_and!; [reflexivity|reflexivity|cbn [loop_entry n_random]; lia|].
      exists []. rewrite app_nil_r.
      split_and!; [reflexivity|reflexivity|reflexivity|reflexivity|lia].
  - exists s', (EvMakedirs OUT_DIR :: evs).
    split_and!; [exact Hrun| |exact Hfs|exact Hg|exact Ha|exact Hsl| |].
    + rewrite Htr. unfold loop_entry. cbn [trace]. rewrite <- app_assoc. reflexivity.
    + destruct evs as [|e evs]; [discriminate|].
      unfold delay in Hlast. replace (n_random s + 6)%nat with (n_random s + 7 - 1)%nat by lia.
      exact Hlast.
    + intros Hr. apply last_sleep_is_a_minute, Hr.
Qed.

Lemma download_one_gives_up_on_network_errors_witness :
  exists s' evs,
    download_one (env_const grant GetNetworkError) sample_task
      (start_with_token "token-1") =
      (Ok (failed sample_task 0 (out_path_for sample_task)), s') /\
    trace s' = trace (start_with_token "token-1") ++ evs /\
    fs s' = fs (start_with_token "token-1") /\
    count is_get evs = 7%nat /\ count is_auth evs = 0%nat /\
    sleeps evs =
      map (fun a => computed_backoff (env_const grant GetNetworkError) a
                      (n_random (start_with_token "token-1") + a - 1)) (seq 1 7) /\
    last evs =
      Some (EvSleep (computed_backoff (env_const grant GetNetworkError) 7
                       (n_random (start_with_token "token-1") + 6))) /\
    ((forall i, 0 <= random_source (env_const grant GetNetworkError) i) ->
       computed_backoff (env_const grant GetNetworkError) 7
         (n_random (start_with_token "token-1") + 6) == 60).
Proof.
  apply (download_one_gives_up_on_network_errors (env_const grant GetNetworkError)
           sample_task (start_with_token "token-1") "token-1").
  - reflexivity.
  - reflexivity.
  - intros i req. reflexivity.
Defined.





(** A token the process can hold while it runs from [s]: the one cached in
    [s], or one that the token endpoint grants. *)
Definition known_token (env : Env) (s : State) (t : string) : Prop :=
  _token s = Some t \/
  exists i st, auth_server env i = AuthResponse st (JsonToken t).

(** The image request of [task] under the token [t]. *)
Definition image_request (task : DownloadTask) (t : string) : Request :=
  {| req_url := IMG_URL (country task) (pub_number task) (kind task);
     req_Authorization := "Bearer " +:+ t;
     req_Accept := "application/pdf";
     req_Range := RANGE_HEADER_VALUE |}.

(** Every request in [evs] is the image request of [task] under a token
    known from [s0]. *)
Definition requests_ok (env : Env) (task : DownloadTask) (s0 : State)
    (evs : list event) : Prop :=
  Forall (fun e => forall req, e = EvGet req ->
            exists t, known_token env s0 t /\ req = image_request task t) evs.

Lemma attempt_requests env task s0 a s t :
  known_token env s0 t ->
  headers_Authorization s = "Bearer " +:+ t ->
  (forall t', _token s = Some t' -> known_token env s0 t') ->
  wp (attempt_body env task (IMG_URL (country task) (pub_number task) (kind task))
        (out_path_for task) a)
     (fun r s' =>
        (exists t', known_token env s0 t' /\
                    headers_Authorization s' = "Bearer " +:+ t') /\
        (forall t', _token s' = Some t' -> known_token env s0 t') /\
        exists evs, trace s' = trace s ++ evs /\ requests_ok env task s0 evs) s.
Proof.
  intros Ht Hh Htok. unfold attempt_body.
  repeat wp_prim.
  all: rewrite ?Hh.
  all: split_and!;
    [first [exists t; split; [exact Ht|first [exact Hh|reflexivity]]
           |eexists; split; [|reflexivity]; right; eauto]
    |first [exact Htok|intros t' [= <-]; right; eauto]
    |eexists; split; [rewrite <- ?app_assoc; reflexivity|]].
  all: unfold requests_ok; repeat (constructor; [intros req Hreq; try discriminate|]);
    try constructor.
  all: injection Hreq as <-; exists t; split; [exact Ht|reflexivity].
Qed.

(** X11: every image request that [download_one] sends is the request for
    its own task (the URL made of the task's country, number and kind, with
    [Accept: application/pdf] and the configured [Range]) and carries
    [Authorization: Bearer <token>] for a token that was cached when the call
    began or that the token endpoint granted: no request goes out without a
    token, for another document, or with a token of unknown origin. *)
Theorem download_one_requests_are_authorized env task s :
  exists r s' evs,
    download_one env task s = (r, s') /\ trace s' = trace s ++ evs /\
    forall req, EvGet req ∈ evs ->
      exists t,
        (_token s = Some t \/
         exists i st, auth_server env i = AuthResponse st (JsonToken t)) /\
        req_url req = IMG_URL (country task) (pub_number task) (kind task) /\
        req_Authorization req = "Bearer " +:+ t /\
        req_Accept req = "application/pdf" /\ req_Range req = RANGE_HEADER_VALUE.
Proof.
  destruct (wp_elim (download_one env task)
    (fun r s' => exists evs, trace s' = trace s ++ evs /\ requests_ok env task s evs) s)
    as (r & s' & Hrun & evs & Htr & Hok).
  - assert (Hloop : forall s0 t pre,
              known_token env s t -> headers_Authorization s0 = "Bearer " +:+ t ->
              (forall t', _token s0 = Some t' -> known_token env s t') ->
              trace s0 = trace s ++ pre -> requests_ok env task s pre ->
              wp (for_loop (range 1 8)
                    (attempt_body env task
                       (IMG_URL (country task) (pub_number task) (kind task))
                       (out_path_for task))
                    (let* s1 := get in
                     ret (failed task (http_status s1) (out_path_for task))))
                 (fun r s' => exists evs, trace s' = trace s ++ evs /\
                                          requests_ok env task s evs) s0).
    { intros s0 t pre Ht Hh Htok Hpre Hok.
      apply (wp_for_loop _ _ _
        (fun _ s1 =>
           (exists t', known_token env s t' /\
                       headers_Authorization s1 = "Bearer " +:+ t') /\
           (forall t', _token s1 = Some t' -> known_token env s t') /\
           exists evs, trace s1 = trace s ++ evs /\ requests_ok env task s evs)).
      - intros i x s1 _ ((t1 & Ht1 & Hh1) & Htok1 & evs1 & Htr1 & Hok1).
        eapply wp_mono; [apply (attempt_requests env task s x s1 t1 Ht1 Hh1 Htok1)|].
        intros r s2 (Hh2 & Htok2 & evs2 & Htr2 & Hok2).
        assert (Hall : exists evs, trace s2 = trace s ++ evs /\
                                   requests_ok env task s evs).
        { exists (evs1 ++ evs2). split; [rewrite Htr2, Htr1, app_assoc; reflexivity|].
          apply Forall_app. split; assumption. }
        destruct r as [[v|]|e]; auto.
      - intros s1 (_ & _ & Hall). repeat wp_prim. exact Hall.
      - split_and!; [eauto|exact Htok|eauto]. }
    unfold download_one.
    repeat wp_prim.
    all: try (eapply Hloop; wp_simpl;
              [ |reflexivity| |rewrite <- ?app_assoc; reflexivity|]).
    all: try match goal with
         | |- known_token _ _ _ =>
             first [left; assumption | right; eauto; fail]
         | |- forall t', _ = Some t' -> known_token _ _ _ =>
             first [intros t' Ht'; left; congruence
                   |intros t' [= <-]; right; eauto; fail]
         | |- requests_ok _ _ _ _ =>
             unfold requests_ok;
             repeat (constructor; [intros req Hreq; discriminate|]); constructor
         | |- exists evs, _ /\ requests_ok _ _ _ evs =>
             eexists; split; [rewrite <- ?app_assoc; reflexivity|];
             unfold requests_ok;
             repeat (constructor; [intros req Hreq; discriminate|]); constructor
         end.
  - exists r, s', evs. split_and!; [exact Hrun|exact Htr|].
    intros req Hreq. unfold requests_ok in Hok. rewrite Forall_forall in Hok.
    destruct (Hok _ Hreq req eq_refl) as (t & Ht & ->).
    exists t. split_and!; [exact Ht|reflexivity..].
Qed.

End AttemptFacts.

(** ** Facts about [get_json] *)

Module GetJsonFacts.
Import Py PyFacts Bulk BulkMain.
Local Open Scope Q_scope.










(** Two 503 answers, then the product page. *)
Definition env_two_failures : JsonEnv :=
  {| json_server := fun k _ =>
       match k with
       | O | S O => JsonResponse 503 None
       | _ => JsonResponse 200 (Some (JDict [("deliveries", JList [])]))
       end;
     error_text := fun _ => "503 Server Error" |}.

Definition env_json_down : JsonEnv :=
  {| json_server := fun _ _ => JsonNetworkError;
     error_text := fun k => if (k =? 5)%nat then "timed out" else "refused" |}.

Example get_json_examples :
  fst (get_json env_two_failures PRODUCT_URL 6 1 json_start) =
    Ok (JDict [("deliveries", JList [])]) /\
  n_json (snd (get_json env_two_failures PRODUCT_URL 6 1 json_start)) = 3%nat /\
  fst (get_json env_json_down "u" 6 1 json_start) =
    Raise (RuntimeError (get_json_message "u" (Some "timed out"))) /\
  n_json (snd (get_json env_json_down "u" 6 1 json_start)) = 6%nat /\
  fst (get_json env_json_down "u" 0 1 json_start) =
    Raise (RuntimeError (get_json_message "u" None)) /\
  json_trace (snd (get_json env_json_down "u" 0 1 json_start)) = [] /\
  Qsum (backoff_pauses 1 0 6) == 63.
Proof. split_and!; vm_compute; reflexivity. Qed.

End GetJsonFacts.

(** ** The pauses of [head_content_length] *)

Module HeadFacts.
Import Py PyFacts Bulk BulkMain BulkFacts GetJsonFacts.
Local Open Scope Q_scope.






(** With the arguments of [is_fully_downloaded], four retries from 0.6 s, a
    server that is down costs nine seconds of pauses per file. *)
Example head_pauses_of_is_fully_downloaded :
  Qsum (backoff_pauses (6 # 10) 0 4) == 9.
Proof. reflexivity. Qed.

End HeadFacts.

(** ** Facts about the file loop of [main] *)

Module MainFacts.
Import Py PyFacts Bulk BulkMain BulkFacts.

(** The file at [out] passes the check of [is_fully_downloaded] when the
    probe starts with the [k]-th answer of the server. *)
Definition complete_at (env : Env) (url : string) (f : gmap string node)
    (out : string) (k : nat) : Prop :=
  exists data, f !! out = Some (File data) /\ (0 < len data)%Z /\
               head_result env url k 4 = Some (len data).

Lemma wp_conj {S A} (m : M S A) (Q1 Q2 : res A -> S -> Prop) s :
  wp m Q1 s -> wp m Q2 s -> wp m (fun r s' => Q1 r s' /\ Q2 r s') s.
Proof. unfold wp. auto. Qed.

Definition check_post (env : Env) (path url : string) (s : State)
    (r : res bool) (s' : State) : Prop :=
  fs s' = fs s /\ n_stream s' = n_stream s /\
  (exists evs, trace s' = trace s ++ evs /\ fs_ops evs = [] /\
               (count_heads evs <= 4)%nat) /\
  exists b, r = Ok b /\ (b = true <-> complete_at env url (fs s) path (n_head s)).

Lemma is_fully_downloaded_spec env path url s :
  wp (is_fully_downloaded env path url) (check_post env path url s) s.
Proof.
  unfold is_fully_downloaded. apply wp_bind, wp_get. cbv beta iota.
  assert (Hquiet : exists evs, trace s = trace s ++ evs /\ fs_ops evs = [] /\
                               (count_heads evs <= 4)%nat).
  { exists []. rewrite app_nil_r. split_and!; [reflexivity|reflexivity|simpl; lia]. }
  destruct (fs s !! path) as [[data|]|] eqn:Hfile.
  - destruct (Z.leb_spec (len data) 0) as [Hle|Hgt].
    + apply wp_ret. split_and!; [reflexivity|reflexivity|exact Hquiet|].
      exists false. split; [reflexivity|]. split; [discriminate|].
      intros (d & Hd & Hpos & _). rewrite Hfile in Hd. injection Hd as <-. lia.
    + apply wp_bind. eapply wp_mono; [apply head_content_length_spec|].
      intros r s' (-> & Hfs & Hstream & evs & Htr & Hc & Hops). cbv beta iota.
      destruct (head_result env url (n_head s) 4) as [remote|] eqn:Hres.
      * destruct (Z.eqb_spec (len data) remote) as [Heq|Hne]; cbn [negb];
          apply wp_ret; (split_and!; [exact Hfs|exact Hstream|eauto|]).
        -- exists true. split; [reflexivity|]. split; [|intros _; reflexivity].
           intros _. exists data. split_and!; [exact Hfile|lia|congruence].
        -- exists false. split; [reflexivity|]. split; [discriminate|].
           intros (d & Hd & _ & Hr). rewrite Hfile in Hd. injection Hd as <-.
           rewrite Hres in Hr. congruence.
      * apply wp_ret. split_and!; [exact Hfs|exact Hstream|eauto|].
        exists false. split; [reflexivity|]. split; [discriminate|].
        intros (d & _ & _ & Hr). rewrite Hres in Hr. discriminate.
  - apply wp_ret. split_and!; [reflexivity|reflexivity|exact Hquiet|].
    exists false. split; [reflexivity|]. split; [discriminate|].
    intros (d & Hd & _). rewrite Hfile in Hd. discriminate.
  - apply wp_ret. split_and!; [reflexivity|reflexivity|exact Hquiet|].
    exists false. split; [reflexivity|]. split; [discriminate|].
    intros (d & Hd & _). rewrite Hfile in Hd. discriminate.
Qed.

(** A streamed download sends one request unless the directory cannot be
    made, and what it raises is no [RuntimeError]. *)
Lemma download_stream_counts env url out s :
  wp (download_stream env url out)
     (fun r s' =>
        (n_stream s' = n_stream s \/ n_stream s' = S (n_stream s)) /\
        match r with
        | Ok _ => n_stream s' = S (n_stream s)
        | Raise e => forall msg, e <> RuntimeError msg
        end) s.
Proof.
  unfold download_stream.
  repeat bwp_prim.
  all: try (eapply wp_mono; [apply (write_chunks_spec _ _ 0%Z ""); apply lookup_insert_eq|];
            intros r s1 (-> & Hf & Hn & evs & Htr & Hfs & Hall); bwp_simpl;
            repeat bwp_prim).
  all: rewrite ?Hn; bwp_simpl.
  all: split; [auto|]; try reflexivity; try discriminate.
Qed.

Ltac mwp_prim :=
  first
  [ wp_step
  | lazymatch goal with
    | |- wp (match ?x with _ => _ end) _ _ =>
        first [ match goal with H : x = _ |- _ => rewrite H end
              | destruct x eqn:? ]
    | |- wp ?m _ _ =>
      progress unfold path_exists, unlink, do_fs
    end ]; bwp_simpl.

(** What [main_fetch_file] does from the state [s]: it leaves a verified
    file alone; otherwise it removes what stands at the path, downloads, and
    verifies again. *)
Definition fetch_post (env : Env) (name out url : string) (s : State)
    (r : res unit) (s' : State) : Prop :=
  exists evs, trace s' = trace s ++ evs /\
    ((complete_at env url (fs s) out (n_head s) /\ r = Ok tt /\ fs s' = fs s /\
      n_stream s' = n_stream s /\ fs_ops evs = []) \/
     (~ complete_at env url (fs s) out (n_head s) /\
      (forall data, fs s !! out = Some (File data) ->
         exists rest, fs_ops evs = OpUnlink out :: rest) /\
      match r with
      | Ok _ =>
          n_stream s' = S (n_stream s) /\
          exists status chunks k,
            stream_server env (n_stream s) url = StreamResponse status chunks false /\
            fs s' !! out = Some (File (stream_data chunks)) /\
            complete_at env url (fs s') out k
      | Raise (RuntimeError msg) =>
          msg = "Downloaded file failed verification: " +:+ name /\
          n_stream s' = S (n_stream s) /\
          exists status chunks k,
            stream_server env (n_stream s) url = StreamResponse status chunks false /\
            fs s' !! out = Some (File (stream_data chunks)) /\
            ~ complete_at env url (fs s') out k
      | Raise _ => visible_file (fs s') out = None
      end)).

Lemma main_fetch_file_spec env name out url s :
  wp (main_fetch_file env name out url) (fetch_post env name out url s) s.
Proof.
  unfold main_fetch_file.
  apply wp_bind. eapply wp_mono; [apply is_fully_downloaded_spec|].
  intros r s1 (Hfs1 & Hst1 & (evs1 & Htr1 & Hops1 & _) & b & -> & Hb).
  cbv beta iota. destruct b.
  { apply wp_ret. exists evs1. split; [exact Htr1|]. left.
    split_and!; [apply Hb; reflexivity|reflexivity|exact Hfs1|exact Hst1|exact Hops1]. }
  assert (Hnot : ~ complete_at env url (fs s) out (n_head s)).
  { intros H. apply Hb in H. discriminate. }
  (* the state in which the download starts *)
  assert (Hgo : forall s2 evs2,
            trace s2 = trace s ++ evs2 -> n_stream s2 = n_stream s ->
            visible_file (fs s2) out = None ->
            (forall data, fs s !! out = Some (File data) ->
               exists rest, fs_ops evs2 = OpUnlink out :: rest) ->
            wp (download_stream env url out)
               (fun r s' =>
                  match r with
                  | Ok _ =>
                      wp (let* verified := is_fully_downloaded env out url in
                          if negb verified
                          then raise (RuntimeError
                                 ("Downloaded file failed verification: " +:+ name))
                          else ret tt)
                         (fetch_post env name out url s) s'
                  | Raise e => fetch_post env name out url s (Raise e) s'
                  end) s2).
  { intros s2 evs2 Htr2 Hst2 Hvis2 Hunl.
    eapply wp_mono;
      [apply wp_conj; [apply download_stream_spec|apply download_stream_counts]|].
    intros r s3 ((evs3 & Htr3 & Hfs3 & Hcase) & (Hcnt & Hk)).
    assert (Hunl3 : forall evs4 data, fs s !! out = Some (File data) ->
              exists rest, fs_ops ((evs2 ++ evs3) ++ evs4) = OpUnlink out :: rest).
    { intros evs4 data Hd. destruct (Hunl data Hd) as (rest & Hrest).
      rewrite !fs_ops_app, Hrest. eexists. rewrite <- !app_comm_cons. reflexivity. }
    destruct r as [w|e].
    - destruct Hcase as (status & chunks & staged & Hsrv & _ & _ & _ & Hout3 & _).
      apply wp_bind. eapply wp_mono; [apply is_fully_downloaded_spec|].
      intros r s4 (Hfs4 & Hst4 & (evs4 & Htr4 & _) & b & -> & Hb4).
      cbv beta iota. rewrite Hst2 in Hsrv.
      destruct b; cbn [negb]; [apply wp_ret|apply wp_raise].
      + exists ((evs2 ++ evs3) ++ evs4).
        split; [rewrite Htr4, Htr3, Htr2, !app_assoc; reflexivity|].
        right. split_and!; [exact Hnot|apply Hunl3|congruence|].
        exists status, chunks, (n_head s3). rewrite Hfs4.
        split_and!; [exact Hsrv|exact Hout3|apply Hb4; reflexivity].
      + exists ((evs2 ++ evs3) ++ evs4).
        split; [rewrite Htr4, Htr3, Htr2, !app_assoc; reflexivity|].
        right. split_and!; [exact Hnot|apply Hunl3|reflexivity|congruence|].
        exists status, chunks, (n_head s3). rewrite Hfs4.
        split_and!; [exact Hsrv|exact Hout3|].
        intros H. apply Hb4 in H. discriminate.
    - exists (evs2 ++ evs3).
      split; [rewrite Htr3, Htr2, app_assoc; reflexivity|].
      right. split_and!; [exact Hnot| |].
      + intros data Hd. destruct (Hunl3 [] data Hd) as (rest & Hrest).
        rewrite app_nil_r in Hrest. eauto.
      + assert (Hvis3 : visible_file (fs s3) out = None).
        { rewrite Hfs3, <- Hvis2.
          apply replay_staging_visible with (part_path out);
            [exact Hcase|apply part_path_ne]. }
        destruct e; try exact Hvis3. exfalso. exact (Hk _ eq_refl). }
  unfold path_exists, unlink.
  apply wp_bind, wp_bind, wp_get. cbv beta iota. apply wp_ret.
  destruct (fs s !! out) as [[data|]|] eqn:Hout.
  - (* a regular file that did not pass the check: unlink it *)
    rewrite bool_decide_eq_true_2 by (rewrite Hfs1, Hout; eauto).
    apply wp_bind, wp_bind, wp_get. cbv beta iota. rewrite Hfs1, Hout.
    unfold do_fs. apply wp_modify. cbv beta iota. apply wp_bind.
    eapply (Hgo _ (evs1 ++ [EvFs (OpUnlink out)])); bwp_simpl.
    + rewrite Htr1, app_assoc. reflexivity.
    + exact Hst1.
    + unfold visible_file. cbn [apply_op]. now rewrite lookup_delete_eq.
    + intros d _. rewrite fs_ops_app, Hops1. eexists. reflexivity.
  - (* a directory: [unlink] raises *)
    rewrite bool_decide_eq_true_2 by (rewrite Hfs1, Hout; eauto).
    apply wp_bind, wp_bind, wp_get. cbv beta iota. rewrite Hfs1, Hout.
    apply wp_raise.
    exists evs1. split; [exact Htr1|]. right.
    split_and!; [exact Hnot|intros d Hd; congruence|].
    unfold visible_file. now rewrite Hfs1, Hout.
  - (* nothing at the path *)
    rewrite bool_decide_eq_false_2 by (rewrite Hfs1, Hout; apply is_Some_None).
    apply wp_bind, wp_ret. cbv beta iota. apply wp_bind.
    eapply (Hgo _ evs1).
    + exact Htr1.
    + exact Hst1.
    + unfold visible_file. now rewrite Hfs1, Hout.
    + intros d Hd. congruence.
Qed.

Lemma main_fetch_file_run env name out url s :
  exists r s', main_fetch_file env name out url s = (r, s') /\
               fetch_post env name out url s r s'.
Proof. apply wp_elim, main_fetch_file_spec. Qed.

(** A server that reports the size 6 and streams the six bytes "PKdata". *)
Definition env_six_bytes : Env :=
  {| head_server := fun _ _ => HeadResponse 200 (Some "6");
     stream_server := fun _ _ => StreamResponse 200 ["PK"; "data"] false |}.


(** X14: a file that [is_fully_downloaded] accepts is left alone by the
    file loop of [main]: no download request is sent and nothing is created,
    changed or removed on disk; the loop goes on to the next file. *)
Theorem main_fetch_file_skips_complete env name out url s data :
  fs s !! out = Some (File data) -> (0 < len data)%Z ->
  head_result env url (n_head s) 4 = Some (len data) ->
  exists s' evs,
    main_fetch_file env name out url s = (Ok tt, s') /\
    fs s' = fs s /\ n_stream s' = n_stream s /\
    trace s' = trace s ++ evs /\ fs_ops evs = [].
Proof.
  intros Hfile Hpos Hhead.
  destruct (main_fetch_file_run env name out url s)
    as (r & s' & Hrun & evs & Htr & Hcase).
  destruct Hcase as [(_ & -> & Hfs & Hst & Hops)|(Hnot & _)].
  - exists s', evs. auto.
  - exfalso. apply Hnot. exists data. auto.
Qed.

Lemma main_fetch_file_skips_complete_witness :
  exists s' evs,
    main_fetch_file env_six_bytes "a.zip" "tmp_bdds/a.zip" "u"
      (start {["tmp_bdds/a.zip" := File "PKdata"]}) = (Ok tt, s') /\
    fs s' = fs (start {["tmp_bdds/a.zip" := File "PKdata"]}) /\
    n_stream s' = n_stream (start {["tmp_bdds/a.zip" := File "PKdata"]}) /\
    trace s' = trace (start {["tmp_bdds/a.zip" := File "PKdata"]}) ++ evs /\
    fs_ops evs = [].
Proof.
  apply (main_fetch_file_skips_complete env_six_bytes "a.zip" "tmp_bdds/a.zip" "u"
           (start {["tmp_bdds/a.zip" := File "PKdata"]}) "PKdata").
  - reflexivity.
  - reflexivity.
  - reflexivity.
Defined.

(** X15: the file loop of [main] goes on to the next file only past a
    file that passed [is_fully_downloaded]: when [main_fetch_file] returns,
    the output path holds a regular, non-empty file whose size equals the
    [Content-Length] of a [HEAD] answer; either nothing was downloaded and the
    files are as before, or one download request was sent and the file holds
    exactly the bytes of that stream. *)
Theorem main_fetch_file_ends_verified env name out url s s' :
  main_fetch_file env name out url s = (Ok tt, s') ->
  exists data k,
    fs s' !! out = Some (File data) /\ (0 < len data)%Z /\
    head_result env url k 4 = Some (len data) /\
    ((n_stream s' = n_stream s /\ fs s' = fs s) \/
     (n_stream s' = S (n_stream s) /\
      exists status chunks,
        stream_server env (n_stream s) url = StreamResponse status chunks false /\
        data = stream_data chunks)).
Proof.
  intros Hrun.
  destruct (main_fetch_file_run env name out url s)
    as (r & s0 & Hrun' & evs & Htr & Hcase).
  rewrite Hrun in Hrun'. injection Hrun' as <- <-.
  destruct Hcase as [((data & Hfile & Hpos & Hhead) & _ & Hfs & Hst & _)
                    |(_ & _ & Hst & status & chunks & k & Hsrv & Hfile & Hk)].
  - exists data, (n_head s). rewrite Hfs.
    split_and!; [exact Hfile|exact Hpos|exact Hhead|]. left. split; [exact Hst|reflexivity].
  - destruct Hk as (data & Hfile' & Hpos & Hhead).
    rewrite Hfile in Hfile'. injection Hfile' as <-.
    exists (stream_data chunks), k. split_and!; [exact Hfile|exact Hpos|exact Hhead|].
    right. eauto.
Qed.

Lemma main_fetch_file_ends_verified_witness :
  exists data k,
    fs (snd (main_fetch_file env_six_bytes "a.zip" "tmp_bdds/a.zip" "u" (start ∅)))
      !! "tmp_bdds/a.zip" = Some (File data) /\ (0 < len data)%Z /\
    head_result env_six_bytes "u" k 4 = Some (len data) /\
    ((n_stream (snd (main_fetch_file env_six_bytes "a.zip" "tmp_bdds/a.zip" "u"
                       (start ∅))) = n_stream (start ∅) /\
      fs (snd (main_fetch_file env_six_bytes "a.zip" "tmp_bdds/a.zip" "u" (start ∅)))
        = fs (start ∅)) \/
     (n_stream (snd (main_fetch_file env_six_bytes "a.zip" "tmp_bdds/a.zip" "u"
                       (start ∅))) = S (n_stream (start ∅)) /\
      exists status chunks,
        stream_server env_six_bytes (n_stream (start ∅)) "u" =
          StreamResponse status chunks false /\
        data = stream_data chunks)).
Proof.
  apply (main_fetch_file_ends_verified env_six_bytes "a.zip" "tmp_bdds/a.zip" "u"
           (start ∅)).
  vm_compute. reflexivity.
Defined.




(** X17: a file that does not pass [is_fully_downloaded] is removed before
    anything else is done to the files, and the download that follows is
    all or nothing for the output path: when it raises (connection lost,
    4xx or 5xx status, a file operation refused) no file is left at the
    output path, the old one included; a [RuntimeError] is raised only
    after a completed download, whose whole stream then stands at the path. *)
Theorem main_fetch_file_replaces_unverified env name out url s :
  fst (is_fully_downloaded env out url s) = Ok false ->
  exists r s' evs,
    main_fetch_file env name out url s = (r, s') /\ trace s' = trace s ++ evs /\
    (forall data, fs s !! out = Some (File data) ->
       exists rest, fs_ops evs = OpUnlink out :: rest) /\
    (forall e, r = Raise e -> (forall msg, e <> RuntimeError msg) ->
       visible_file (fs s') out = None) /\
    (forall msg, r = Raise (RuntimeError msg) ->
       exists status chunks,
         stream_server env (n_stream s) url = StreamResponse status chunks false /\
         visible_file (fs s') out = Some (stream_data chunks)) /\
    (r = Ok tt ->
       exists status chunks,
         stream_server env (n_stream s) url = StreamResponse status chunks false /\
         visible_file (fs s') out = Some (stream_data chunks)).
Proof.
  intros Hcheck.
  assert (Hnot : ~ complete_at env url (fs s) out (n_head s)).
  { destruct (wp_elim _ _ _ (is_fully_downloaded_spec env out url s))
      as (r0 & s0 & Hrun0 & _ & _ & _ & b & -> & Hb).
    rewrite Hrun0 in Hcheck. cbn [fst] in Hcheck. injection Hcheck as ->.
    intros H. apply Hb in H. discriminate. }
  destruct (main_fetch_file_run env name out url s)
    as (r & s' & Hrun & evs & Htr & Hcase).
  destruct Hcase as [(Hc & _)|(_ & Hunl & Hcase)]; [destruct (Hnot Hc)|].
  exists r, s', evs. split_and!; [exact Hrun|exact Htr|exact Hunl| | |].
  - intros e -> Hno. destruct e; try exact Hcase. destruct (Hno _ eq_refl).
  - intros msg ->. destruct Hcase as (_ & _ & status & chunks & k & Hsrv & Hfile & _).
    exists status, chunks. unfold visible_file. rewrite Hfile. auto.
  - intros ->. destruct Hcase as (_ & status & chunks & k & Hsrv & Hfile & _).
    exists status, chunks. unfold visible_file. rewrite Hfile. auto.
Qed.

(** A server whose streams break after the first chunk. *)
Definition env_broken_stream : Env :=
  {| head_server := fun _ _ => HeadResponse 200 (Some "6");
     stream_server := fun _ _ => StreamResponse 200 ["PK"] true |}.

Lemma main_fetch_file_replaces_unverified_witness :
  exists r s' evs,
    main_fetch_file env_broken_stream "a.zip" "tmp_bdds/a.zip" "u"
      (start {["tmp_bdds/a.zip" := File "PK"]}) = (r, s') /\
    trace s' = trace (start {["tmp_bdds/a.zip" := File "PK"]}) ++ evs /\
    (forall data,
       fs (start {["tmp_bdds/a.zip" := File "PK"]}) !! "tmp_bdds/a.zip" =
         Some (File data) ->
       exists rest, fs_ops evs = OpUnlink "tmp_bdds/a.zip" :: rest) /\
    (forall e, r = Raise e -> (forall msg, e <> RuntimeError msg) ->
       visible_file (fs s') "tmp_bdds/a.zip" = None) /\
    (forall msg, r = Raise (RuntimeError msg) ->
       exists status chunks,
         stream_server env_broken_stream
           (n_stream (start {["tmp_bdds/a.zip" := File "PK"]})) "u" =
           StreamResponse status chunks false /\
         visible_file (fs s') "tmp_bdds/a.zip" = Some (stream_data chunks)) /\
    (r = Ok tt ->
       exists status chunks,
         stream_server env_broken_stream
           (n_stream (start {["tmp_bdds/a.zip" := File "PK"]})) "u" =
           StreamResponse status chunks false /\
         visible_file (fs s') "tmp_bdds/a.zip" = Some (stream_data chunks)).
Proof.
  apply (main_fetch_file_replaces_unverified env_broken_stream "a.zip"
           "tmp_bdds/a.zip" "u" (start {["tmp_bdds/a.zip" := File "PK"]})).
  vm_compute. reflexivity.
Defined.

(** X18: a download that is refused (the request fails, or the status is
    4xx or 5xx) raises before any file is opened: no [.part] file is made or
    truncated and every regular file is as it was; the one file-system call
    made, if any, is the [mkdir] of the parent directory, which changes
    nothing when that directory is there. *)
Theorem download_stream_refused_touches_no_file env url out s :
  stream_refused (stream_server env (n_stream s) url) = true ->
  exists e s' evs,
    download_stream env url out s = (Raise e, s') /\ trace s' = trace s ++ evs /\
    (fs_ops evs = [] \/ fs_ops evs = [OpMkdir (parent out)]) /\
    (forall p, visible_file (fs s') p = visible_file (fs s) p) /\
    (is_Some (fs s !! parent out) -> fs s' = fs s).
Proof.
  intros Href.
  destruct (wp_elim (download_stream env url out)
    (fun r s' => exists e evs,
       r = Raise e /\ trace s' = trace s ++ evs /\
       (fs_ops evs = [] \/ fs_ops evs = [OpMkdir (parent out)]) /\
       (forall p, visible_file (fs s') p = visible_file (fs s) p) /\
       (is_Some (fs s !! parent out) -> fs s' = fs s)) s)
    as (r & s' & Hrun & e & evs & -> & H); [|eauto 10].
  unfold download_stream. unfold mkdir at 1.
  apply wp_bind, wp_bind, wp_get. cbv beta iota.
  assert (Hdirs : (forall p,
                     visible_file (apply_op (OpMkdir (parent out)) (fs s)) p =
                     visible_file (fs s) p) /\
                  (is_Some (fs s !! parent out) ->
                     apply_op (OpMkdir (parent out)) (fs s) = fs s)).
  { cbn [apply_op]. destruct (fs s !! parent out) eqn:Hp.
    - split; [reflexivity|reflexivity].
    - split; [|intros [x Hx]; discriminate].
      intros p. unfold visible_file. destruct (decide (p = parent out)) as [->|Hne].
      + now rewrite lookup_insert_eq, Hp.
      + now rewrite lookup_insert_ne by congruence. }
  destruct Hdirs as (Hother & Hsame).
  assert (Hgo : wp (do_fs (OpMkdir (parent out)))
            (fun r s1 => match r with
               | Ok _ =>
                   wp (let* k := tick_stream in
                       emit (EvGetStream url) ;;
                       match stream_server env k url with
                       | StreamNetworkError => raise ConnectionError
                       | StreamResponse status chunks breaks =>
                           raise_for_status status ;;
                           open_wb (part_path out) ;;
                           let* written := write_chunks (part_path out) chunks 0 in
                           (if breaks then raise ConnectionError else ret tt) ;;
                           replace (part_path out) out ;;
                           ret written
                       end)
                      (fun r s' => exists e evs,
                         r = Raise e /\ trace s' = trace s ++ evs /\
                         (fs_ops evs = [] \/ fs_ops evs = [OpMkdir (parent out)]) /\
                         (forall p, visible_file (fs s') p = visible_file (fs s) p) /\
                         (is_Some (fs s !! parent out) -> fs s' = fs s)) s1
               | Raise e0 => False
               end) s).
  { unfold do_fs. apply wp_modify.
    unfold tick_stream, emit. repeat bwp_prim.
    all: try (cbn [stream_refused] in Href; congruence).
    all: eexists _, [EvFs (OpMkdir (parent out)); EvGetStream url].
    all: split_and!; [reflexivity|rewrite <- app_assoc; reflexivity|right; reflexivity
                     |exact Hother|exact Hsame]. }
  destruct (fs s !! parent out) as [[data|]|] eqn:Hp.
  - apply wp_raise. exists OSError, []. rewrite app_nil_r.
    split_and!; [reflexivity|reflexivity|left; reflexivity|reflexivity|reflexivity].
  - eapply wp_mono; [exact Hgo|]. intros [[]|e0] s1 H; [exact H|destruct H].
  - eapply wp_mono; [exact Hgo|]. intros [[]|e0] s1 H; [exact H|destruct H].
Qed.

Lemma download_stream_refused_touches_no_file_witness :
  exists e s' evs,
    download_stream
      {| head_server := fun _ _ => HeadNetworkError;
         stream_server := fun _ _ => StreamResponse 404 ["<error/>"] false |}
      "u" "tmp_bdds/a.zip" (start ∅) = (Raise e, s') /\
    trace s' = trace (start ∅) ++ evs /\
    (fs_ops evs = [] \/ fs_ops evs = [OpMkdir (parent "tmp_bdds/a.zip")]) /\
    (forall p, visible_file (fs s') p = visible_file (fs (start ∅)) p) /\
    (is_Some (fs (start ∅) !! parent "tmp_bdds/a.zip") -> fs s' = fs (start ∅)).
Proof.
  apply (download_stream_refused_touches_no_file
           {| head_server := fun _ _ => HeadNetworkError;
              stream_server := fun _ _ => StreamResponse 404 ["<error/>"] false |}
           "u" "tmp_bdds/a.zip" (start ∅)).
  reflexivity.
Defined.

(** The old file is gone after a download that broke: the partial bytes
    stay in the [.part] sibling. *)
Example failed_redownload_loses_old_file :
  let s' := snd (main_fetch_file env_broken_stream "a.zip" "tmp_bdds/a.zip" "u"
                   (start {["tmp_bdds/a.zip" := File "old!"]})) in
  fst (main_fetch_file env_broken_stream "a.zip" "tmp_bdds/a.zip" "u"
         (start {["tmp_bdds/a.zip" := File "old!"]})) = Raise ConnectionError /\
  fs s' !! "tmp_bdds/a.zip" = None /\
  fs s' !! "tmp_bdds/a.zip.part" = Some (File "PK").
Proof. split_and!; vm_compute; reflexivity. Qed.

End MainFacts.

(** ** Facts about the JSON helpers of the bulk downloader *)

Module ListingFacts.
Import Py Bulk BulkMain BulkFacts.

Lemma first_list_cases d keys :
  (first_list d keys = [] /\ forall k, k ∈ keys -> list_valued d k = false) \/
  (exists pre k post v,
     keys = pre ++ k :: post /\ (forall k', k' ∈ pre -> list_valued d k' = false) /\
     dict_get k d = Some (JList v) /\ first_list d keys = v).
Proof.
  induction keys as [|k rest IH]; cbn [first_list].
  - left. split; [reflexivity|]. intros k Hk. by apply elem_of_nil in Hk.
  - assert (Hskip : list_valued d k = false ->
      (first_list d rest = [] /\ forall k0, k0 ∈ k :: rest -> list_valued d k0 = false) \/
      (exists pre k0 post v,
         k :: rest = pre ++ k0 :: post /\
         (forall k', k' ∈ pre -> list_valued d k' = false) /\
         dict_get k0 d = Some (JList v) /\ first_list d rest = v)).
    { intros Hk.
      destruct IH as [[Hn Hall]|(pre & k1 & post & v & -> & Hpre & Hk1 & Hv)].
      - left. split; [exact Hn|]. intros k' [->|Hin]%elem_of_cons; auto.
      - right. exists (k :: pre), k1, post, v. split_and!; auto.
        intros k' [->|Hin]%elem_of_cons; auto. }
    unfold list_valued in Hskip.
    destruct (dict_get k d) as [[| | | |v|]|] eqn:Hk; auto.
    right. exists [], k, rest, v. split_and!; auto.
    intros k' Hin. by apply elem_of_nil in Hin.
Qed.

(** X19: [find_files_list] yields the value of the first of the keys
    "files", "file", "items", "content", "assets", "documents" that holds a
    list, and the empty list when none does; values that are no lists are
    passed over.  The first list wins even when it is empty: a delivery with
    an empty "files" and a filled "items" has no files for [main]. *)
Theorem find_files_list_takes_first_list :
  (forall d,
     (find_files_list d = [] /\
      forall k, k ∈ ["files"; "file"; "items"; "content"; "assets"; "documents"] ->
                list_valued d k = false) \/
     (exists pre k post v,
        ["files"; "file"; "items"; "content"; "assets"; "documents"] =
          pre ++ k :: post /\
        (forall k', k' ∈ pre -> list_valued d k' = false) /\
        dict_get k d = Some (JList v) /\ find_files_list d = v)) /\
  (forall x rest, find_files_list (("files", JList []) :: ("items", JList [x]) :: rest) = []) /\
  (forall x y,
     find_files_list [("files", JStr x); ("items", JList [y])] = [y]).
Proof.
  split_and!.
  - intros d. apply first_list_cases.
  - reflexivity.
  - reflexivity.
Qed.

(** X20: [find_file_name] never yields an empty or null name.  The first
    of the keys "name", "fileName", "filename", "originalName" that is present
    and not null decides; when that value is falsy (an empty string, 0, false,
    an empty list or dict) the name is "download.bin" and the later keys are
    not tried, as when no key is usable at all. *)
Theorem find_file_name_defaults d :
  truthy (find_file_name d) = true /\
  ((pick_first d ["name"; "fileName"; "filename"; "originalName"] = JNull /\
    find_file_name d = JStr "download.bin") \/
   (exists pre k post v,
      ["name"; "fileName"; "filename"; "originalName"] = pre ++ k :: post /\
      (forall k', k' ∈ pre -> usable d k' = false) /\
      dict_get k d = Some v /\ v <> JNull /\
      find_file_name d = if truthy v then v else JStr "download.bin")) /\
  (forall rest, find_file_name (("name", JStr "") :: ("fileName", JStr "a.zip") :: rest)
                  = JStr "download.bin").
Proof.
  split_and!.
  - unfold find_file_name.
    destruct (truthy (pick_first d _)) eqn:Ht; [exact Ht|reflexivity].
  - unfold find_file_name.
    destruct (pick_first_cases d ["name"; "fileName"; "filename"; "originalName"])
      as [[Hn _]|(pre & k & post & v & Hkeys & Hpre & Hk & Hv & Hp)].
    + left. rewrite Hn. split; reflexivity.
    + right. exists pre, k, post, v. rewrite Hp. auto.
  - reflexivity.
Qed.

Lemma main_file_nested_cases d keys :
  (main_file_nested_lookup d keys = (JNull, d) /\
   forall k, k ∈ keys -> nested_file_usable d k = false) \/
  (exists pre k post inner,
     keys = pre ++ k :: post /\
     (forall k', k' ∈ pre -> nested_file_usable d k' = false) /\
     dict_get k d = Some (JDict inner) /\ find_file_id inner <> JNull /\
     main_file_nested_lookup d keys = (find_file_id inner, inner)).
Proof.
  induction keys as [|k rest IH]; cbn [main_file_nested_lookup].
  - left. split; [reflexivity|]. intros k Hk. by apply elem_of_nil in Hk.
  - assert (Hskip : nested_file_usable d k = false ->
      (main_file_nested_lookup d rest = (JNull, d) /\
       forall k0, k0 ∈ k :: rest -> nested_file_usable d k0 = false) \/
      (exists pre k0 post inner,
         k :: rest = pre ++ k0 :: post /\
         (forall k', k' ∈ pre -> nested_file_usable d k' = false) /\
         dict_get k0 d = Some (JDict inner) /\ find_file_id inner <> JNull /\
         main_file_nested_lookup d rest = (find_file_id inner, inner))).
    { intros Hk.
      destruct IH as [[Hn Hall]|(pre & k1 & post & inner & -> & Hpre & Hk1 & Hv1 & Hp)].
      - left. split; [exact Hn|]. intros k' [->|Hin]%elem_of_cons; auto.
      - right. exists (k :: pre), k1, post, inner. split_and!; auto.
        intros k' [->|Hin]%elem_of_cons; auto. }
    unfold nested_file_usable in Hskip.
    destruct (dict_get k d) as [[| | | | |inner]|] eqn:Hk; auto.
    destruct (is_None (find_file_id inner)) eqn:Hv; auto.
    right. exists [], k, rest, inner. split_and!; auto.
    + intros k' Hin. by apply elem_of_nil in Hin.
    + intros E. rewrite E in Hv. discriminate.
Qed.

(** X21: the file lookup of [main].  A file object with a usable id of its
    own ("id", "fileId", "file_id", "fileID", "uuid", "key", in this order) is
    kept as it is.  Otherwise the dicts under "file", "data", "meta" are tried
    in this order, one level deep, and the first that holds an id replaces the
    file object, so that the name is then read from the nested dict: a name
    next to the nested dict is lost and the file is called "download.bin". *)
Theorem file_id_lookup :
  (forall d, find_file_id d <> JNull -> main_file_lookup d = (find_file_id d, d)) /\
  (forall d, find_file_id d = JNull ->
     (main_file_lookup d = (JNull, d) /\
      forall k, k ∈ ["file"; "data"; "meta"] -> nested_file_usable d k = false) \/
     (exists pre k post inner,
        ["file"; "data"; "meta"] = pre ++ k :: post /\
        (forall k', k' ∈ pre -> nested_file_usable d k' = false) /\
        dict_get k d = Some (JDict inner) /\ find_file_id inner <> JNull /\
        main_file_lookup d = (find_file_id inner, inner))) /\
  (forall x name, x <> JNull ->
     main_file_lookup [("name", JStr name); ("file", JDict [("id", x)])] =
       (x, [("id", x)]) /\
     find_file_name (snd (main_file_lookup
                            [("name", JStr name); ("file", JDict [("id", x)])])) =
       JStr "download.bin") /\
  (forall x y, x <> JNull -> y <> JNull ->
     fst (main_file_lookup [("meta", JDict [("id", x)]); ("data", JDict [("id", y)])])
       = y).
Proof.
  split_and!.
  - intros d Hd. unfold main_file_lookup.
    destruct (find_file_id d); try reflexivity. congruence.
  - intros d Hd. unfold main_file_lookup. rewrite Hd. cbn [is_None].
    apply main_file_nested_cases.
  - intros x name Hx. destruct x; try (split; reflexivity). congruence.
  - intros x y Hx Hy. destruct x, y; try reflexivity; congruence.
Qed.

End ListingFacts.

(** ** More facts about the rate limiter *)

Module LimiterFacts.
Import RateLimiter RateLimiterFacts.
Local Open Scope Q_scope.


(** X23: [with self.lock] keeps the threads apart.  In every state the
    limiter can reach, at most one thread is inside [wait], that thread holds
    the lock, and a thread can enter only while every thread is outside; so
    no thread reads the clock, sleeps or records a timestamp while another one
    does. *)
Theorem wait_is_mutually_exclusive rate t0 schedule m :
  run (min_interval_of rate) schedule (init t0) = Some m ->
  (forall t t', pcs m t <> Idle -> pcs m t' <> Idle -> t = t') /\
  (forall t, pcs m t <> Idle -> lock m = Some t) /\
  (forall t m', exec (min_interval_of rate) (Acquire t) m = Some m' ->
     (forall t', pcs m t' = Idle) /\ lock m' = Some t /\ pcs m' t = Entered).
Proof.
  intros Hrun.
  assert (HI : Inv (min_interval_of rate) m)
    by (eapply Inv_run; [apply Inv_init|exact Hrun]).
  destruct HI as [_ _ Hk _]. split_and!.
  - intros t t' Ht Ht'. apply Hk in Ht, Ht'. congruence.
  - exact Hk.
  - intros t m' Hex. simpl in Hex.
    destruct (lock m) eqn:Hlock; [discriminate|].
    destruct (pcs m t) eqn:Ht; try discriminate. injection Hex as <-.
    split_and!; [|reflexivity|apply upd_same].
    intros t'. destruct (pcs m t') eqn:E; [reflexivity|..].
    all: assert (H : None = Some t') by (apply Hk; rewrite E; discriminate);
      discriminate.
Qed.

(** Thread 1 sleeps inside [wait] after thread 0 has passed. *)
Definition sample_sleeping : Machine :=
  default (init 0)
    (run (min_interval_of 1)
       (wait_at_once 0 ++ [Acquire 1; ReadNow 1; Decide 1]) (init 1700000000)).

Lemma wait_is_mutually_exclusive_witness :
  (forall t t', pcs sample_sleeping t <> Idle -> pcs sample_sleeping t' <> Idle ->
                t = t') /\
  (forall t, pcs sample_sleeping t <> Idle -> lock sample_sleeping = Some t) /\
  (forall t m', exec (min_interval_of 1) (Acquire t) sample_sleeping = Some m' ->
     (forall t', pcs sample_sleeping t' = Idle) /\ lock m' = Some t /\
     pcs m' t = Entered).
Proof.
  apply (wait_is_mutually_exclusive 1 1700000000
           (wait_at_once 0 ++ [Acquire 1; ReadNow 1; Decide 1]) sample_sleeping).
  vm_compute. reflexivity.
Defined.

Lemma Qlt_bool_true a b : Qlt_bool a b = true <-> a < b.
Proof.
  unfold Qlt_bool. rewrite negb_true_iff. split.
  - intros H. apply Qnot_le_lt. intros Hle. apply Qle_bool_iff in Hle. congruence.
  - intros H. destruct (Qle_bool b a) eqn:E; [|reflexivity].
    apply Qle_bool_iff in E. lra.
Qed.

Lemma Qle_bool_true a b : a <= b -> Qle_bool a b = true.
Proof. apply Qle_bool_iff. Qed.

Lemma Qle_bool_false a b : b < a -> Qle_bool a b = false.
Proof.
  intros H. destruct (Qle_bool a b) eqn:E; [|reflexivity].
  apply Qle_bool_iff in E. lra.
Qed.

(** X24: a lone caller is held no longer than needed.  On a free limiter,
    a call of [wait] that finds the interval over ([wait_for <= 0]) records the
    current time at once, without sleeping, and releases the lock.  A call that
    finds [wait_for > 0] cannot record a timestamp without sleeping; it goes
    through exactly when at least [wait_for] seconds pass during its sleep, and
    then records the time at which it woke. *)
Theorem wait_returns_when_due mi m t :
  lock m = None -> pcs m t = Idle ->
  (wait_for mi (clock m) (last m) <= 0 ->
     exists m', run mi (wait_at_once t) m = Some m' /\
       stamps m' = clock m :: stamps m /\ last m' = clock m /\
       clock m' = clock m /\ lock m' = None /\ pcs m' t = Idle) /\
  (0 < wait_for mi (clock m) (last m) ->
     run mi (wait_at_once t) m = None /\
     (forall d, d < wait_for mi (clock m) (last m) ->
        run mi (wait_sleeping t d) m = None) /\
     (forall d, wait_for mi (clock m) (last m) <= d ->
        exists m', run mi (wait_sleeping t d) m = Some m' /\
          stamps m' = (clock m + d) :: stamps m /\ last m' = clock m + d /\
          lock m' = None /\ pcs m' t = Idle)).
Proof.
  intros Hlock Hidle.
  set (w := wait_for mi (clock m) (last m)).
  unfold wait_at_once, wait_sleeping.
  cbn [run exec]. rewrite Hlock, Hidle.
  cbn [run exec pcs clock last lock stamps set_pc]. rewrite !upd_same.
  cbn [run exec pcs clock last lock stamps set_pc]. rewrite !upd_same.
  fold w. split.
  - intros Hw.
    assert (E : Qlt_bool 0 w = false).
    { destruct (Qlt_bool 0 w) eqn:E; [|reflexivity]. apply Qlt_bool_true in E. lra. }
    rewrite E. cbn [run exec pcs clock last lock stamps set_pc]. rewrite !upd_same.
    cbn [run exec pcs clock last lock stamps set_pc]. rewrite !upd_same.
    eexists. split; [reflexivity|]. cbn [stamps last clock lock pcs].
    rewrite upd_same. split_and!; reflexivity.
  - intros Hw.
    assert (E : Qlt_bool 0 w = true) by (apply Qlt_bool_true; exact Hw).
    rewrite E. cbn [run exec pcs clock last lock stamps set_pc]. rewrite !upd_same.
    split_and!.
    + reflexivity.
    + intros d Hd. destruct (Qle_bool 0 d) eqn:E0; [|reflexivity].
      cbn [run exec pcs clock last lock stamps set_pc]. rewrite !upd_same.
      rewrite Qle_bool_false by lra. reflexivity.
    + intros d Hd. rewrite Qle_bool_true by lra.
      cbn [run exec pcs clock last lock stamps set_pc]. rewrite !upd_same.
      rewrite Qle_bool_true by lra.
      cbn [run exec pcs clock last lock stamps set_pc]. rewrite !upd_same.
      cbn [run exec pcs clock last lock stamps set_pc]. rewrite !upd_same.
      eexists. split; [reflexivity|]. cbn [stamps last clock lock pcs].
      rewrite upd_same. split_and!; reflexivity.
Qed.

Lemma wait_returns_when_due_witness :
  (wait_for 1 (clock (init 1700000000)) (last (init 1700000000)) <= 0 ->
     exists m', run 1 (wait_at_once 0) (init 1700000000) = Some m' /\
       stamps m' = clock (init 1700000000) :: stamps (init 1700000000) /\
       last m' = clock (init 1700000000) /\
       clock m' = clock (init 1700000000) /\ lock m' = None /\ pcs m' 0%nat = Idle) /\
  (0 < wait_for 1 (clock (init 1700000000)) (last (init 1700000000)) ->
     run 1 (wait_at_once 0) (init 1700000000) = None /\
     (forall d, d < wait_for 1 (clock (init 1700000000)) (last (init 1700000000)) ->
        run 1 (wait_sleeping 0 d) (init 1700000000) = None) /\
     (forall d, wait_for 1 (clock (init 1700000000)) (last (init 1700000000)) <= d ->
        exists m', run 1 (wait_sleeping 0 d) (init 1700000000) = Some m' /\
          stamps m' = (clock (init 1700000000) + d) :: stamps (init 1700000000) /\
          last m' = clock (init 1700000000) + d /\
          lock m' = None /\ pcs m' 0%nat = Idle)).
Proof.
  apply (wait_returns_when_due 1 (init 1700000000) 0%nat); reflexivity.
Defined.

End LimiterFacts.

(** ** Output paths of the front-page downloader *)

Module PathFacts.
Import Py FrontPage BulkFacts.

Lemma append_inj_l (a b c : string) : a +:+ b = a +:+ c -> b = c.
Proof.
  induction a as [|x a IH]; [auto|].
  change (String x (a +:+ b) = String x (a +:+ c) -> b = c).
  intros [= H]. auto.
Qed.

Lemma append_inj_r_len (s : string) : forall a b,
  String.length a = String.length b -> a +:+ s = b +:+ s -> a = b.
Proof.
  induction a as [|x a IH]; intros [|y b] Hlen H; try discriminate; [reflexivity|].
  change (String x (a +:+ s) = String y (b +:+ s)) in H.
  injection H as -> H. f_equal. apply IH; [simpl in Hlen; lia|exact H].
Qed.

Lemma append_inj_r (a b s : string) : a +:+ s = b +:+ s -> a = b.
Proof.
  intros H. apply (append_inj_r_len s); [|exact H].
  apply (f_equal String.length) in H. rewrite !length_append in H. lia.
Qed.

Lemma os_path_join_OUT_DIR b :
  os_path_join OUT_DIR b = if startswith b "/" then b else "front_pages/" +:+ b.
Proof. unfold os_path_join. destruct (startswith b "/"); reflexivity. Qed.

Lemma startswith_slash b : startswith b "/" = true -> exists b', b = String "/" b'.
Proof.
  destruct b as [|c b]; [discriminate|]. unfold startswith. cbn [String.prefix].
  destruct (Ascii.ascii_dec "/" c) as [<-|]; [eauto|discriminate].
Qed.

Lemma os_path_join_OUT_DIR_inj b1 b2 :
  os_path_join OUT_DIR b1 = os_path_join OUT_DIR b2 -> b1 = b2.
Proof.
  rewrite !os_path_join_OUT_DIR.
  destruct (startswith b1 "/") eqn:H1, (startswith b2 "/") eqn:H2; intros H.
  - exact H.
  - apply startswith_slash in H1 as (b' & ->). discriminate.
  - apply startswith_slash in H2 as (b' & ->). discriminate.
  - exact (append_inj_l _ _ _ H).
Qed.

(** X25: [out_path_for] tells two tasks apart only as far as the
    concatenation of country, number and kind does: two tasks get the same
    output path exactly when these concatenations are equal, as for number "1"
    with kind "23" and number "12" with kind "3".  Tasks that share a path
    share the pre-check of [download_one]: once the file of one of them stands
    with more than 1024 bytes, the other one is skipped. *)
Theorem out_path_for_collisions t1 t2 :
  (out_path_for t1 = out_path_for t2 <->
   country t1 +:+ pub_number t1 +:+ kind t1 =
     country t2 +:+ pub_number t2 +:+ kind t2) /\
  (out_path_for t1 = out_path_for t2 ->
   forall s, already_downloaded s t1 = already_downloaded s t2) /\
  out_path_for {| pub_number := "1"; kind := "23"; country := COUNTRY |} =
    out_path_for {| pub_number := "12"; kind := "3"; country := COUNTRY |}.
Proof.
  split_and!.
  - assert (E : forall t,
              country t +:+ pub_number t +:+ kind t +:+ "_page1.pdf" =
              (country t +:+ pub_number t +:+ kind t) +:+ "_page1.pdf")
      by (intros t; now rewrite !append_assoc).
    unfold out_path_for. rewrite !E. split.
    + intros H%os_path_join_OUT_DIR_inj. exact (append_inj_r _ _ _ H).
    + intros H. now rewrite H.
  - intros H s. unfold already_downloaded. now rewrite H.
  - reflexivity.
Qed.

End PathFacts.
